(** * clippy-action: action inputs, check-run publication and the diagnostic pipeline

    A shallow embedding of the action's TypeScript sources:

    - [Inputs] follows [src/inputs.ts] ([getBooleanInput], [getArrayInput],
      [getInputs]);
    - [Main] follows [src/main.ts] from the call of [clippy.getClippyOutput]
      to the end of [main], together with the [catch] handler installed on
      the promise [main()] returns;
    - [Action] follows [src/main.ts] from the start of [main]
      ([validateSubscription], the inputs, the toolchain, the creation of
      the check run, the call of clippy) and hands over to [Main];
    - [Clippy] holds the diagnostic stream decoder, the aggregator and the
      renderer.  [src/clippy.ts] is not among the files covered here, so the
      definitions of that module are written from the specification, and
      each says so.

    Strings are byte strings, JavaScript numbers that carry line, column and
    exit-code values are integers ([Z]); [undefined] is [None]. *)

From Stdlib Require Import Ascii String.
From stdpp Require Import base decidable option numbers list strings pretty gmap.

Open Scope string_scope.

(** ** src/inputs.ts *)

Module Inputs.

(** [InputOptions] of [@actions/core]. *)
Record InputOptions := {
  required : option bool;
  trimWhitespace : option bool
}.

Record Inputs := {
  working_directory : option string;
  all_features : bool;
  github_token : string;
  check_args : list string;
  forbid : list string;
  allow : list string;
  deny : list string;
  args : list string;
  warn : list string
}.

(** What the module writes through [@actions/core]. *)
Inductive LogEvent :=
| error (message : string)
| warning (message : string).

(** The [Error] thrown by [getBooleanInput]; its message is the template
    filled with the key [name] and the received [value]. *)
Inductive JsError :=
| YamlCoreSchemaError (name value : string).

(** A call either returns or throws. *)
Inductive Completion (A : Type) :=
| Return (a : A)
| Throw (e : JsError).
Arguments Return {A} a.
Arguments Throw {A} e.

Definition truthy : gset string := {[ "true"; "True"; "TRUE" ]}.
Definition falsy : gset string := {[ "false"; "False"; "FALSE" ]}.

(** [s.split(sep)] for a one-character separator (the module only splits on
    [','] and [' ']): the pieces between the separators, empty ones kept. *)
Fixpoint split (sep : Ascii.ascii) (s : string) : list string :=
  match s with
  | EmptyString => [EmptyString]
  | String c s' =>
      if Ascii.eqb c sep then EmptyString :: split sep s'
      else match split sep s' with
           | [] => [String c EmptyString]
           | w :: ws => String c w :: ws
           end
  end.

(** [Boolean(s)] on a string: false exactly on the empty string. *)
Definition Boolean (s : string) : bool :=
  match s with EmptyString => false | String _ _ => true end.

Section Host.

(** [getInput] of [@actions/core] reads the runner's environment, and
    [String.prototype.trim] is the host's: both are taken as given. *)
Variable getInput : string → InputOptions → string.
Variable trim : string → string.

Definition getBooleanInput (name : string) (options : InputOptions) : Completion bool :=
  let value := getInput name options in
  if negb (Boolean value) then Return false
  else if bool_decide (value ∈ truthy) then Return true
  else if bool_decide (value ∈ falsy) then Return false
  else Throw (YamlCoreSchemaError name value).

Definition getArrayInput (input : string) (sep : Ascii.ascii) : list string :=
  trim <$> filter (λ s, Is_true (Boolean s))
             (split sep (getInput input {| required := None; trimWhitespace := Some true |})).

(** The deprecation warning issued when a lint-level list is not empty. *)
Definition deprecated (name : string) (l : list string) : list LogEvent :=
  match l with
  | [] => []
  | _ :: _ =>
      [warning ("The `" +:+ name +:+
                "` input is deprecated in v1.4 and can be used within the `check-args` input")]
  end.

(** [getInputs] returns the events it logged and how the call completed;
    [Return None] is the [null] result. *)
Definition getInputs : list LogEvent * Completion (option Inputs) :=
  let opts := {| required := None; trimWhitespace := Some true |} in
  let wd := getInput "working-directory" opts in
  let token := getInput "token" opts in
  if bool_decide (token = EmptyString) then
    ([error "Missing required input: `token`"], Return None)
  else
    let allow_ := getArrayInput "allow" ","%char in
    let deny_ := getArrayInput "deny" ","%char in
    let forbid_ := getArrayInput "forbid" ","%char in
    let warn_ := getArrayInput "warn" ","%char in
    let args_ := getArrayInput "args" " "%char in
    let checkArgs := getArrayInput "check-args" " "%char in
    let log := (deprecated "allow" allow_ ++ deprecated "deny" deny_
                ++ deprecated "forbid" forbid_ ++ deprecated "warn" warn_)%list in
    match getBooleanInput "all-features" opts with
    | Throw e => (log, Throw e)
    | Return b =>
        (log, Return (Some {| working_directory := Some wd;
                              github_token := token;
                              all_features := b;
                              check_args := checkArgs;
                              forbid := forbid_;
                              allow := allow_;
                              warn := warn_;
                              deny := deny_;
                              args := args_ |}))
    end.

End Host.

End Inputs.

(** ** src/main.ts *)

Module Main.

(** The three levels of a check-run annotation. *)
Module AnnotationLevel.
Inductive t := failure | warning | notice.
End AnnotationLevel.

(** The conclusion of a completed check run. *)
Module Conclusion.
Inductive t := success | failure.
End Conclusion.

(** An entry of [renderer.annotations], with the fields [main] reads.
    [file] and [title] are read through [!], the four positions may be
    [undefined]. *)
Record Annotation := {
  file : option string;
  level : string;
  startLine : option Z;
  endLine : option Z;
  startColumn : option Z;
  endColumn : option Z;
  rendered : string;
  title : option string
}.

(** [clippy.kDefaultRenderer], the object [renderMessages] fills. *)
Record Renderer := {
  annotations : list Annotation
}.

(** One annotation of the [output.annotations] array sent to the API. *)
Record CheckAnnotation := {
  annotation_level : AnnotationLevel.t;
  path : option string;
  start_line : Z;
  end_line : Z;
  start_column : option Z;
  end_column : option Z;
  raw_details : string;
  message : option string
}.

Record Output := {
  output_title : string;
  summary : string;
  text : string;
  output_annotations : list CheckAnnotation
}.

(** The body of [PATCH /repos/{owner}/{repo}/check-runs/{check_run_id}]. *)
Record CheckRunUpdate := {
  check_run_id : Z;
  owner : string;
  repo : string;
  status : string;
  conclusion : Conclusion.t;
  started_at : string;
  completed_at : string;
  output : Output
}.

(** [!!x] on an optional string: [undefined] and the empty string are falsy. *)
Definition truthy (x : option string) : bool :=
  match x with
  | Some (String _ _) => true
  | Some EmptyString | None => false
  end.

(** [x || 0] on an optional number: [undefined] and [0] give [0]. *)
Definition or_zero (x : option Z) : Z :=
  match x with
  | Some n => if (n =? 0)%Z then 0%Z else n
  | None => 0%Z
  end.

(** [x || d] on an optional string. *)
Definition or_string (x : option string) (d : string) : string :=
  match x with
  | Some (String c s) => String c s
  | Some EmptyString | None => d
  end.

(** The nested conditional on [annotation.level]. *)
Definition annotation_level_of (level : string) : AnnotationLevel.t :=
  if String.eqb level "error" then AnnotationLevel.failure
  else if String.eqb level "warning" then AnnotationLevel.warning
  else AnnotationLevel.notice.

(** The function given to [.map]; it is written out twice in [main], once
    per branch of [exitCode === 0], with the same text. *)
Definition toCheckAnnotation (annotation : Annotation) : CheckAnnotation :=
  {| annotation_level := annotation_level_of (level annotation);
     path := file annotation;
     start_line := or_zero (startLine annotation);
     end_line := or_zero (endLine annotation);
     start_column := startColumn annotation;
     end_column := endColumn annotation;
     raw_details := rendered annotation;
     message := title annotation |}.

(** [renderer.annotations.filter((x) => !!x.file).map(...)]. *)
Definition publish (l : list Annotation) : list CheckAnnotation :=
  toCheckAnnotation <$> filter (λ x, Is_true (truthy (file x))) l.

(** What [main] knows when [clippy.renderMessages] has returned: the outcome
    of creating the check run, clippy's exit code, the renderer, and the
    values taken from the action context, the toolchain and the clock. *)
Record Run := {
  canPerformCheckRun : bool;
  id : option Z;
  exitCode : Z;
  renderer : Renderer;
  context_owner : string;
  context_repo : string;
  toolchain : string;
  os : string;
  arch : string;
  startedAt : string;
  completed : string;
  elapsed : Z;
  inputs_working_directory : option string
}.

Inductive LogEvent :=
| debug (message : string)
| info (message : string)
| setFailed (message : string).

(** How the process ends: [main] returned after [process.exitCode = code],
    or [process.exit(code)] was called. *)
Inductive ProcessEnd :=
| exitCode_set (code : Z)
| exit (code : Z).


Record Trace := {
  requests : list CheckRunUpdate;
  log : list LogEvent;
  renderer_after : Renderer;
  process : ProcessEnd
}.

Definition newline : string := String (ascii_of_nat 10) EmptyString.

Definition output_text (r : Run) : string :=
  String.concat newline
    [ "Running `cargo clippy` took roughly ~" +:+ pretty (elapsed r) +:+ "ms to complete";
      EmptyString;
      "* Working Directory: " +:+ or_string (inputs_working_directory r) "repository directory" ].

Definition output_of (r : Run) : Output :=
  if (exitCode r =? 0)%Z then
    {| output_title := "Clippy (" +:+ toolchain r +:+ " ~ " +:+ os r +:+ "/" +:+ arch r +:+ ")";
       summary := "Clippy was successful!";
       text := output_text r;
       output_annotations := publish (annotations (renderer r)) |}
  else
    {| output_title := "Clippy (" +:+ toolchain r +:+ " ~ " +:+ os r +:+ "/" +:+ arch r +:+ ")";
       summary := "Clippy failed.";
       text := output_text r;
       output_annotations := publish (annotations (renderer r)) |}.

Definition update_of (r : Run) (check_run : Z) : CheckRunUpdate :=
  {| check_run_id := check_run;
     owner := context_owner r;
     repo := context_repo r;
     status := "completed";
     conclusion := if (exitCode r =? 0)%Z then Conclusion.success else Conclusion.failure;
     started_at := startedAt r;
     completed_at := completed r;
     output := output_of r |}.

Section Api.

(** [client.request]: the response data printed as JSON when the promise
    resolves, [None] when it rejects. *)
Variable request : CheckRunUpdate → option string.

(** [main] from the line after [clippy.renderMessages(pieces)] on.  A
    rejected request leaves [main] through the [catch] handler of
    [main().catch(...)], which calls [setFailed] and [process.exit(1)]. *)
Definition main (r : Run) : Trace :=
  match canPerformCheckRun r, id r with
  | true, Some check_run =>
      let update := update_of r check_run in
      match request update with
      | Some data =>
          {| requests := [update];
             log := [debug data; info ("Clippy exited with code " +:+ pretty (exitCode r))];
             renderer_after := renderer r;
             process := exitCode_set (exitCode r) |}
      | None =>
          {| requests := [update];
             log := [setFailed "@augu/clippy-action failed to run"];
             renderer_after := renderer r;
             process := exit 1 |}
      end
  | _, _ =>
      {| requests := [];
         log := [info ("Clippy exited with code " +:+ pretty (exitCode r))];
         renderer_after := renderer r;
         process := exitCode_set (exitCode r) |}
  end.

End Api.

End Main.

(** ** src/main.ts, from the start of [main] *)

Module Action.

#[local] Open Scope list_scope.

(** [s.slice(start)] for a start inside or past the string: what follows the
    first [start] characters. *)
Fixpoint slice (start : nat) (s : string) : string :=
  match start, s with
  | 0, _ => s
  | S n, String _ s' => slice n s'
  | S _, EmptyString => EmptyString
  end.

(** [s.endsWith(t)]: the last [t.length] characters of [s] are [t]. *)
Definition endsWith (s t : string) : bool :=
  (String.length t <=? String.length s)%nat
  && String.eqb (slice (String.length s - String.length t)%nat s) t.

(** How [axios.get] ended: it resolved, it threw an axios error whose
    response, if any, has the given status, or it threw something else. *)
Inductive AxiosOutcome :=
| axios_resolved
| axios_error (status : option Z)
| other_error.

(** What [main] and the functions it calls write through [@actions/core]:
    the group markers, [error] and [warning] (as in [Inputs.LogEvent]), and
    [debug], [info] and [setFailed] (as in [Main.LogEvent]). *)
Inductive Event :=
| startGroup (name : string)
| endGroup
| log_inputs (e : Inputs.LogEvent)
| log_main (e : Main.LogEvent).

(** The body of [POST /repos/{owner}/{repo}/check-runs]. *)
Record CheckRunCreate := {
  create_owner : string;
  create_repo : string;
  name : string;
  head_sha : string;
  create_status : string;
  create_started_at : string
}.

(** Everything [main] obtains from outside: the subscription request, the
    action inputs, the tools found on the runner, the GitHub API, the action
    context, the clock, and the functions of [./clippy] and [./os-info].
    A promise that rejects, or a call that throws, is [None] (for the
    creation of the check run, the text that is then logged). *)
Record Host := {
  subscription : AxiosOutcome;
  getInput : string → Inputs.InputOptions → string;
  trim : string → string;
  which_cargo : option string;
  rustc_version : option string;
  create_check_run : CheckRunCreate → Z + string;
  getClippyOutput : Inputs.Inputs → string → option (Z * list string);
  renderMessages : list string → option Main.Renderer;
  update_check_run : Main.CheckRunUpdate → option string;
  context_sha : string;
  context_owner : string;
  context_repo : string;
  os : string;
  arch : string;
  startedAt : string;
  completed : string;
  elapsed : Z
}.

(** What a run of the action did: what it logged, the requests it sent, the
    calls of [getClippyOutput], and how the process ended. *)
Record Trace := {
  events : list Event;
  created : list CheckRunCreate;
  clippy_runs : list (Inputs.Inputs * string);
  updates : list Main.CheckRunUpdate;
  process : Main.ProcessEnd
}.

(** [validateSubscription]: the events logged, and whether [main] goes on
    ([false] after [process.exit(1)]). *)
Definition validateSubscription (o : AxiosOutcome) : list Event * bool :=
  match o with
  | axios_resolved => ([], true)
  | axios_error (Some status) =>
      if (status =? 403)%Z
      then ([log_inputs
               (Inputs.error "Subscription is not valid. Reach out to support@stepsecurity.io")],
            false)
      else ([log_main (Main.info "Timeout or API not reachable. Continuing to next step.")],
            true)
  | axios_error None | other_error =>
      ([log_main (Main.info "Timeout or API not reachable. Continuing to next step.")], true)
  end.

(** The label derived from the last dot-separated part of the version. *)
Definition toolchain_of (patch : string) : string :=
  if endsWith patch "-nightly" then "Nightly"
  else if endsWith patch "-beta" then "Beta"
  else "Stable".

(** The request that creates the check run. *)
Definition create_of (h : Host) (inputs : Inputs.Inputs) (toolchain version : string)
    : CheckRunCreate :=
  {| create_owner := context_owner h;
     create_repo := context_repo h;
     name := "Clippy: Rust " +:+ toolchain +:+ " " +:+ version +:+
             match Inputs.working_directory inputs with
             | Some wd => " in " +:+ wd
             | None => EmptyString
             end;
     head_sha := context_sha h;
     create_status := "in_progress";
     create_started_at := startedAt h |}.

(** [process.exit(1)] after the events [evs]. *)
Definition exits (evs : list Event) (cs : list CheckRunCreate)
    (runs : list (Inputs.Inputs * string)) : Trace :=
  {| events := evs; created := cs; clippy_runs := runs; updates := [];
     process := Main.exit 1 |}.

(** The promise of [main] rejects after the events [evs]: the [catch]
    handler calls [setFailed] and [process.exit(1)]. *)
Definition rejects (evs : list Event) (cs : list CheckRunCreate)
    (runs : list (Inputs.Inputs * string)) : Trace :=
  exits (evs ++ [log_main (Main.setFailed "@augu/clippy-action failed to run")]) cs runs.

(** What the [try] around the creation of the check run logs: the id on
    success, two warnings when the request rejects. *)
Definition creation_events (response : Z + string) : list Event :=
  match response with
  | inl new_id =>
      [log_main (Main.info ("Created check run with ID [" +:+ pretty new_id +:+ "]"))]
  | inr text =>
      [log_inputs (Inputs.warning
         "clippy-action doesn't have permissions to create Check Runs, disabling!");
       log_inputs (Inputs.warning text)]
  end.

(** The variables of [main] after [clippy.renderMessages(pieces)]:
    [canPerformCheckRun] and [id] as the creation of the check run left
    them, clippy's exit code, the renderer. *)
Definition run_of (h : Host) (inputs : Inputs.Inputs) (toolchain : string)
    (response : Z + string) (exitCode : Z) (renderer : Main.Renderer) : Main.Run :=
  {| Main.canPerformCheckRun := match response with inl _ => true | inr _ => false end;
     Main.id := match response with inl new_id => Some new_id | inr _ => None end;
     Main.exitCode := exitCode;
     Main.renderer := renderer;
     Main.context_owner := context_owner h;
     Main.context_repo := context_repo h;
     Main.toolchain := toolchain;
     Main.os := os h;
     Main.arch := arch h;
     Main.startedAt := startedAt h;
     Main.completed := completed h;
     Main.elapsed := elapsed h;
     Main.inputs_working_directory := Inputs.working_directory inputs |}.

(** [main] with its [catch] handler.  From the line after
    [clippy.renderMessages(pieces)] on it is [Main.main]. *)
Definition main (h : Host) : Trace :=
  let '(ev0, go_on) := validateSubscription (subscription h) in
  if negb go_on then exits ev0 [] [] else
  let '(inputs_log, completion) := Inputs.getInputs (getInput h) (trim h) in
  let ev1 := ev0 ++ (log_inputs <$> inputs_log) in
  match completion with
  | Inputs.Throw _ => rejects ev1 [] []
  | Inputs.Return None => exits ev1 [] []
  | Inputs.Return (Some inputs) =>
      match which_cargo h with
      | None =>
          exits (ev1 ++ [startGroup "Check if `cargo` exists";
                         log_inputs (Inputs.error
                           "Cargo tool doesn't exist. Please add a step to install a valid Rust toolchain.")])
            [] []
      | Some cargoPath =>
          let ev2 :=
            ev1 ++ [startGroup "Check if `cargo` exists";
                    log_main (Main.info ("Found `cargo` binary in path [" +:+ cargoPath +:+ "]"));
                    endGroup;
                    startGroup "Collecting rustc information..."] in
          match rustc_version h with
          | None => rejects ev2 [] []
          | Some stdout =>
              let version := slice (String.length "rustc ") stdout in
              let ev3 := ev2 ++ [endGroup] in
              match last (Inputs.split "."%char version) with
              | None => exits ev3 [] []
              | Some patch =>
                  let toolchain := toolchain_of patch in
                  let create := create_of h inputs toolchain version in
                  let response := create_check_run h create in
                  let ev4 := ev3 ++ creation_events response in
                  match getClippyOutput h inputs cargoPath with
                  | None => rejects ev4 [create] [(inputs, cargoPath)]
                  | Some (exitCode, pieces) =>
                      match renderMessages h pieces with
                      | None => rejects ev4 [create] [(inputs, cargoPath)]
                      | Some renderer =>
                          let t :=
                            Main.main (update_check_run h)
                              (run_of h inputs toolchain response exitCode renderer) in
                          {| events := ev4 ++ (log_main <$> Main.log t);
                             created := [create];
                             clippy_runs := [(inputs, cargoPath)];
                             updates := Main.requests t;
                             process := Main.process t |}
                      end
                  end
              end
          end
      end
  end.

End Action.

(** ** The diagnostic pipeline ([src/clippy.ts], written from the specification) *)

Module Clippy.

(** Modelled from the spec: [clippy.ts] is missing; the closed enumeration
    of severities (section 3). *)
Inductive Severity := Error | Warning | Note.

#[global] Instance Severity_eq_dec : EqDecision Severity.
Proof. solve_decision. Defined.

(** Modelled from the spec: [clippy.ts] is missing; a source range (section 3). *)
Record Span := {
  file : string;
  start_line : N;
  end_line : N;
  start_column : N;
  end_column : N
}.

#[global] Instance Span_eq_dec : EqDecision Span.
Proof. solve_decision. Defined.

(** Modelled from the spec: [clippy.ts] is missing; one parsed diagnostic
    (section 3). *)
Record DiagnosticRecord := {
  severity : Severity;
  title : string;
  rendered : string;
  spans : list Span;
  primary_span_index : option nat
}.

#[global] Instance DiagnosticRecord_eq_dec : EqDecision DiagnosticRecord.
Proof. solve_decision. Defined.

(** Modelled from the spec: [clippy.ts] is missing; the designated span of a
    record, when it has one. *)
Definition primary_span (r : DiagnosticRecord) : option Span :=
  i ← primary_span_index r; spans r !! i.

(** *** Stream Decoder *)

(** Modelled from the spec: [clippy.ts] is missing; a span as the protocol
    lists it, marked primary or not (section 4.1). *)
Record SpanMessage := {
  span : Span;
  is_primary : bool
}.

(** Modelled from the spec: [clippy.ts] is missing; the payload of a line
    whose discriminator says it is a diagnostic. *)
Record DiagnosticMessage := {
  level : string;
  message : string;
  message_rendered : string;
  message_spans : list SpanMessage
}.

(** Modelled from the spec: [clippy.ts] is missing; the tagged union decoded
    from the discriminator field (section 9): a diagnostic, or any other
    kind of structured message. *)
Inductive Message :=
| diagnostic (d : DiagnosticMessage)
| other (reason : string).

(** Modelled from the spec: [clippy.ts] is missing; how the line source
    ends: no line remains, or reading failed. *)
Inductive Ending := end_of_stream | read_failure.

(** Modelled from the spec: [clippy.ts] is missing; the lines read from the
    subprocess, in order, and how the source ended. *)
Record LineSource := {
  lines : list string;
  ending : Ending
}.

(** Modelled from the spec: [clippy.ts] is missing; the outcome of a stage
    fed by the line source: [StreamReadFailure] is the only failure, and it
    carries what was produced from the lines read before it (section 7). *)
Inductive Result (A : Type) :=
| Finished (a : A)
| StreamReadFailure (partial : A).
Arguments Finished {A} a.
Arguments StreamReadFailure {A} partial.

(** Modelled from the spec: [clippy.ts] is missing; a later stage works on
    what the earlier one produced and keeps its outcome. *)
Definition Result_map {A B : Type} (f : A → B) (r : Result A) : Result B :=
  match r with
  | Finished a => Finished (f a)
  | StreamReadFailure a => StreamReadFailure (f a)
  end.

(** Modelled from the spec: [clippy.ts] is missing; the index of the first
    span marked primary, counting from [i]. *)
Fixpoint first_primary (i : nat) (l : list SpanMessage) : option nat :=
  match l with
  | [] => None
  | s :: l' => if is_primary s then Some i else first_primary (S i) l'
  end.

(** Modelled from the spec: [clippy.ts] is missing; the primary span is the
    first span marked primary, or the first span listed when none is marked
    (sections 3 and 4.1). *)
Definition primary_index (l : list SpanMessage) : option nat :=
  match first_primary 0 l with
  | Some i => Some i
  | None => match l with [] => None | _ :: _ => Some 0 end
  end.

Section Decoder.

(** The parser of the structured line format and the table of tool-specific
    severity aliases are the protocol's: both are taken as given. *)
Variable parse : string → option Message.
Variable alias : string → option Severity.

(** Modelled from the spec: [clippy.ts] is missing; severity strings are
    matched case-sensitively against [error], [warning], [note] and the
    aliases, anything else is [Note] (section 4.1). *)
Definition decodeSeverity (s : string) : Severity :=
  if String.eqb s "error" then Error
  else if String.eqb s "warning" then Warning
  else if String.eqb s "note" then Note
  else default Note (alias s).

(** Modelled from the spec: [clippy.ts] is missing; a message that is not a
    diagnostic is skipped, and so is a diagnostic that carries an empty
    message (section 4.1); the rendered text is taken as it is. *)
Definition decodeMessage (m : Message) : option DiagnosticRecord :=
  match m with
  | other _ => None
  | diagnostic d =>
      if String.eqb (message d) EmptyString
      then None
      else Some {| severity := decodeSeverity (level d);
                   title := message d;
                   rendered := message_rendered d;
                   spans := span <$> message_spans d;
                   primary_span_index := primary_index (message_spans d) |}
  end.

(** Modelled from the spec: [clippy.ts] is missing; each line yields zero or
    one record, a line that does not parse is skipped (section 4.1). *)
Definition decodeLine (line : string) : option DiagnosticRecord :=
  parse line ≫= decodeMessage.

(** Modelled from the spec: [clippy.ts] is missing; the records of the lines
    read, in stream order, and [StreamReadFailure] when the source failed. *)
Definition decode (src : LineSource) : Result (list DiagnosticRecord) :=
  match ending src with
  | end_of_stream => Finished (omap decodeLine (lines src))
  | read_failure => StreamReadFailure (omap decodeLine (lines src))
  end.

End Decoder.

(** *** Aggregator *)

(** Modelled from the spec: [clippy.ts] is missing; the derived key of
    section 3, on the primary span when there is one and on the rendered
    text otherwise. *)
Inductive AggregationKey :=
| span_key (file : string) (start_line end_line start_column end_column : N)
    (severity : Severity) (title : string)
| no_span_key (severity : Severity) (title rendered : string).

#[global] Instance AggregationKey_eq_dec : EqDecision AggregationKey.
Proof. solve_decision. Defined.

(** Modelled from the spec: [clippy.ts] is missing; the key of a record
    (section 3). *)
Definition aggregation_key (r : DiagnosticRecord) : AggregationKey :=
  match primary_span r with
  | Some s =>
      span_key (file s) (start_line s) (end_line s) (start_column s) (end_column s)
        (severity r) (title r)
  | None => no_span_key (severity r) (title r) (rendered r)
  end.

(** Modelled from the spec: [clippy.ts] is missing; the key of a record's
    group: the file of its primary span, [None] being the "no file" key. *)
Definition file_key (r : DiagnosticRecord) : option string :=
  file <$> primary_span r.

(** Modelled from the spec: [clippy.ts] is missing; a group (section 3). *)
Record Group := {
  group_file : option string;
  records : list DiagnosticRecord
}.

(** Modelled from the spec: [clippy.ts] is missing; the two insertion-ordered
    mappings of section 4.2: the keys already seen and the groups. *)
Record Aggregator := {
  seen : list AggregationKey;
  groups : list Group
}.

(** Modelled from the spec: [clippy.ts] is missing; the aggregator before
    the first record. *)
Definition empty : Aggregator := {| seen := []; groups := [] |}.

(** Modelled from the spec: [clippy.ts] is missing; a surviving record's
    group is created on the first reference to its file key and appended to
    thereafter. *)
Fixpoint add_to_group (fk : option string) (r : DiagnosticRecord) (gs : list Group) : list Group :=
  match gs with
  | [] => [ {| group_file := fk; records := [r] |} ]
  | g :: gs' =>
      if decide (group_file g = fk)
      then {| group_file := group_file g; records := records g ++ [r] |} :: gs'
      else g :: add_to_group fk r gs'
  end.

(** Modelled from the spec: [clippy.ts] is missing; a record whose key
    already exists is dropped, any other is recorded and grouped. *)
Definition observe (st : Aggregator) (r : DiagnosticRecord) : Aggregator :=
  if decide (aggregation_key r ∈ seen st) then st
  else {| seen := seen st ++ [aggregation_key r];
          groups := add_to_group (file_key r) r (groups st) |}.

(** Modelled from the spec: [clippy.ts] is missing; one pass over the whole
    sequence of records (section 4.2). *)
Definition aggregate (rs : list DiagnosticRecord) : list Group :=
  groups (foldl observe empty rs).

(** *** Renderer *)

(** Modelled from the spec: [clippy.ts] is missing; the three-level scheme
    of annotations. *)
Inductive Level := failure | warning | notice.

(** Modelled from the spec: [clippy.ts] is missing; the projection of a
    record (section 3). *)
Record Annotation := {
  annotation_file : option string;
  annotation_start_line : N;
  annotation_end_line : N;
  annotation_start_column : option N;
  annotation_end_column : option N;
  annotation_level : Level;
  raw_details : string;
  annotation_message : string
}.

(** Modelled from the spec: [clippy.ts] is missing; one formatted entry of a
    block: severity tag, title, rendered detail (section 4.3). *)
Record Entry := {
  tag : Severity;
  entry_title : string;
  detail : string
}.

(** Modelled from the spec: [clippy.ts] is missing; a render block: a header
    and one entry per record. *)
Record Block := {
  header : string;
  entries : list Entry
}.

(** Modelled from the spec: [clippy.ts] is missing; the mapping of section 3. *)
Definition level_of (s : Severity) : Level :=
  match s with
  | Error => failure
  | Warning => warning
  | Note => notice
  end.

(** Modelled from the spec: [clippy.ts] is missing; the annotation of a
    record: the range of its primary span, and no file, no columns and line
    0 when it has none. *)
Definition annotation_of (r : DiagnosticRecord) : Annotation :=
  {| annotation_file := file <$> primary_span r;
     annotation_start_line := from_option start_line 0%N (primary_span r);
     annotation_end_line := from_option end_line 0%N (primary_span r);
     annotation_start_column := start_column <$> primary_span r;
     annotation_end_column := end_column <$> primary_span r;
     annotation_level := level_of (severity r);
     raw_details := rendered r;
     annotation_message := title r |}.

(** Modelled from the spec: [clippy.ts] is missing; the entry of a record. *)
Definition entry_of (r : DiagnosticRecord) : Entry :=
  {| tag := severity r; entry_title := title r; detail := rendered r |}.

(** Modelled from the spec: [clippy.ts] is missing; the block of a group:
    the file name or [general], then the entries in group order. *)
Definition block_of (g : Group) : Block :=
  {| header := default "general" (group_file g);
     entries := entry_of <$> records g |}.

(** Modelled from the spec: [clippy.ts] is missing; what the renderer
    produces (section 4.3): one block per group, and the annotations in
    group order then in-group record order. *)
Record Rendering := {
  blocks : list Block;
  annotations : list Annotation
}.

(** Modelled from the spec: [clippy.ts] is missing; the renderer, a
    projection of the groups (section 4.3). *)
Definition render (gs : list Group) : Rendering :=
  {| blocks := block_of <$> gs;
     annotations := gs ≫= (λ g, annotation_of <$> records g) |}.

(** Modelled from the spec: [clippy.ts] is missing; the pipeline of
    section 2: decoder, aggregator, renderer. *)
Definition run (parse : string → option Message) (alias : string → option Severity)
    (src : LineSource) : Result Rendering :=
  Result_map (λ rs, render (aggregate rs)) (decode parse alias src).

(** *** Reference notions used to state the properties *)

(** The first occurrences of a list, by key, in list order: an element is
    kept when its key is neither in [seen] nor the key of an earlier
    element. *)
Fixpoint keep_first {A K : Type} `{EqDecision K} (key : A → K) (seen : list K) (l : list A) : list A :=
  match l with
  | [] => []
  | x :: l' =>
      if decide (key x ∈ seen) then keep_first key seen l'
      else x :: keep_first key (seen ++ [key x]) l'
  end.

(** The records that survive deduplication, in stream order. *)
Definition survivors (rs : list DiagnosticRecord) : list DiagnosticRecord :=
  keep_first aggregation_key [] rs.

(** The position of the first element equal to [x]. *)
Fixpoint index_of {A : Type} `{EqDecision A} (x : A) (l : list A) : option nat :=
  match l with
  | [] => None
  | y :: l' => if decide (y = x) then Some 0 else S <$> index_of x l'
  end.

(** The records of all groups, group after group. *)
Definition grouped (gs : list Group) : list DiagnosticRecord :=
  gs ≫= records.

(** The grouping step of [observe] alone, over records that all survive. *)
Definition group_all (gs : list Group) (ss : list DiagnosticRecord) : list Group :=
  foldl (λ gs r, add_to_group (file_key r) r gs) gs ss.

(** The records of the first group whose file key is [fk]. *)
Fixpoint records_of (fk : option string) (gs : list Group) : list DiagnosticRecord :=
  match gs with
  | [] => []
  | g :: gs' => if decide (group_file g = fk) then records g else records_of fk gs'
  end.


(** A line that does not parse as a structured diagnostic message: it does
    not parse at all (plain text, a truncated line), or it parses as a
    message of another kind (a build-status notice). *)
Definition non_diagnostic (parse : string → option Message) (line : string) : bool :=
  match parse line with
  | Some (diagnostic _) => false
  | Some (other _) | None => true
  end.

(** [without noise l l'] : [l'] is [l] with some of its [noise] lines
    removed, the other lines kept in order. *)
Inductive without (noise : string → bool) : list string → list string → Prop :=
| without_nil : without noise [] []
| without_keep (x : string) (l l' : list string) :
    without noise l l' → without noise (x :: l) (x :: l')
| without_drop (x : string) (l l' : list string) :
    noise x = true → without noise l l' → without noise (x :: l) l'.

End Clippy.

(** * Sample data *)

Definition sample_inputs (all_features : string) (name : string) (_ : Inputs.InputOptions) : string :=
  if String.eqb name "token" then "ghp_token"
  else if String.eqb name "all-features" then all_features
  else if String.eqb name "allow" then "clippy::all,,clippy::cargo"
  else EmptyString.

Definition unused_variable : Main.Annotation :=
  {| Main.file := Some "src/lib.rs";
     Main.level := "error";
     Main.startLine := Some 10%Z;
     Main.endLine := Some 10%Z;
     Main.startColumn := Some 5%Z;
     Main.endColumn := Some 9%Z;
     Main.rendered := "error: unused variable: `x`";
     Main.title := Some "unused variable: `x`" |}.

Definition deprecated_attribute : Main.Annotation :=
  {| Main.file := None;
     Main.level := "warning";
     Main.startLine := None;
     Main.endLine := None;
     Main.startColumn := None;
     Main.endColumn := None;
     Main.rendered := "warning: deprecated attribute";
     Main.title := Some "deprecated attribute" |}.

Definition help_without_range : Main.Annotation :=
  {| Main.file := Some "src/main.rs";
     Main.level := "help";
     Main.startLine := Some 0%Z;
     Main.endLine := None;
     Main.startColumn := None;
     Main.endColumn := Some 3%Z;
     Main.rendered := "help: consider using `_x`";
     Main.title := Some "consider using `_x`" |}.

Definition sample_annotations : list Main.Annotation :=
  [unused_variable; deprecated_attribute; help_without_range].

(** A run in which clippy exits with 0 and one diagnostic was rendered. *)
Definition clean_run : Main.Run :=
  {| Main.canPerformCheckRun := true;
     Main.id := Some 7%Z;
     Main.exitCode := 0%Z;
     Main.renderer := {| Main.annotations := sample_annotations |};
     Main.context_owner := "step-security";
     Main.context_repo := "clippy-action";
     Main.toolchain := "Stable";
     Main.os := "Linux";
     Main.arch := "x64";
     Main.startedAt := "2025-01-01T00:00:00.000Z";
     Main.completed := "2025-01-01T00:00:05.000Z";
     Main.elapsed := 5000%Z;
     Main.inputs_working_directory := Some EmptyString |}.

(** Diagnostics of a small crate, and a parser that recognises the lines
    standing for them. *)
Definition lib_span : Clippy.SpanMessage :=
  {| Clippy.span := {| Clippy.file := "src/lib.rs";
                       Clippy.start_line := 10; Clippy.end_line := 10;
                       Clippy.start_column := 5; Clippy.end_column := 9 |};
     Clippy.is_primary := true |}.

Definition util_span : Clippy.SpanMessage :=
  {| Clippy.span := {| Clippy.file := "src/util.rs";
                       Clippy.start_line := 1; Clippy.end_line := 1;
                       Clippy.start_column := 1; Clippy.end_column := 4 |};
     Clippy.is_primary := false |}.

Definition main_span : Clippy.SpanMessage :=
  {| Clippy.span := {| Clippy.file := "src/main.rs";
                       Clippy.start_line := 3; Clippy.end_line := 4;
                       Clippy.start_column := 1; Clippy.end_column := 2 |};
     Clippy.is_primary := true |}.

Definition unused_message : Clippy.DiagnosticMessage :=
  {| Clippy.level := "error";
     Clippy.message := "unused variable: `x`";
     Clippy.message_rendered := "error: unused variable: `x`";
     Clippy.message_spans := [lib_span] |}.

(** The same diagnostic as reported for a second build target. *)
Definition unused_message_bin : Clippy.DiagnosticMessage :=
  {| Clippy.level := "error";
     Clippy.message := "unused variable: `x`";
     Clippy.message_rendered := "error: unused variable: `x` (bin target)";
     Clippy.message_spans := [lib_span] |}.

Definition deprecated_message : Clippy.DiagnosticMessage :=
  {| Clippy.level := "warning";
     Clippy.message := "deprecated attribute";
     Clippy.message_rendered := "warning: deprecated attribute";
     Clippy.message_spans := [] |}.

Definition help_message : Clippy.DiagnosticMessage :=
  {| Clippy.level := "help";
     Clippy.message := "consider using `_x`";
     Clippy.message_rendered := "help: consider using `_x`";
     Clippy.message_spans := [util_span; main_span] |}.

Definition blank_message : Clippy.DiagnosticMessage :=
  {| Clippy.level := "note";
     Clippy.message := EmptyString;
     Clippy.message_rendered := "note";
     Clippy.message_spans := [] |}.

Definition sample_parse (line : string) : option Clippy.Message :=
  if String.eqb line "unused" then Some (Clippy.diagnostic unused_message)
  else if String.eqb line "unused-bin" then Some (Clippy.diagnostic unused_message_bin)
  else if String.eqb line "deprecated" then Some (Clippy.diagnostic deprecated_message)
  else if String.eqb line "help" then Some (Clippy.diagnostic help_message)
  else if String.eqb line "blank" then Some (Clippy.diagnostic blank_message)
  else if String.eqb line "build-finished" then Some (Clippy.other "build-finished")
  else None.




Definition sample_alias (s : string) : option Clippy.Severity :=
  if String.eqb s "error: internal compiler error" then Some Clippy.Error else None.

Definition unused_record : Clippy.DiagnosticRecord :=
  {| Clippy.severity := Clippy.Error;
     Clippy.title := "unused variable: `x`";
     Clippy.rendered := "error: unused variable: `x`";
     Clippy.spans := [Clippy.span lib_span];
     Clippy.primary_span_index := Some 0 |}.

Definition unused_record_bin : Clippy.DiagnosticRecord :=
  {| Clippy.severity := Clippy.Error;
     Clippy.title := "unused variable: `x`";
     Clippy.rendered := "error: unused variable: `x` (bin target)";
     Clippy.spans := [Clippy.span lib_span];
     Clippy.primary_span_index := Some 0 |}.

Definition deprecated_record : Clippy.DiagnosticRecord :=
  {| Clippy.severity := Clippy.Warning;
     Clippy.title := "deprecated attribute";
     Clippy.rendered := "warning: deprecated attribute";
     Clippy.spans := [];
     Clippy.primary_span_index := None |}.

Definition help_record : Clippy.DiagnosticRecord :=
  {| Clippy.severity := Clippy.Note;
     Clippy.title := "consider using `_x`";
     Clippy.rendered := "help: consider using `_x`";
     Clippy.spans := [Clippy.span util_span; Clippy.span main_span];
     Clippy.primary_span_index := Some 1 |}.

Definition noisy_lines : list string :=
  ["help"; "   Compiling clippy-action v1.0.0"; "unused"; "deprecated";
   "build-finished"; "unused-bin"; "{ truncated"; "help"].

Definition quiet_lines : list string :=
  ["help"; "unused"; "deprecated"; "unused-bin"; "help"].

Definition sample_records : list Clippy.DiagnosticRecord :=
  [help_record; unused_record; deprecated_record; unused_record_bin; help_record].

(** A runner on which everything succeeds but, maybe, the creation of the
    check run; [rustc --version] answers as a nightly compiler does. *)
Definition sample_stdout : string :=
  "rustc 1.72.0-nightly (5680fa18f 2023-07-01)" +:+ Main.newline.

Definition sample_host (response : Z + string) : Action.Host :=
  {| Action.subscription := Action.axios_resolved;
     Action.getInput := sample_inputs "TRUE";
     Action.trim := id;
     Action.which_cargo := Some "/home/runner/.cargo/bin/cargo";
     Action.rustc_version := Some sample_stdout;
     Action.create_check_run := λ _, response;
     Action.getClippyOutput := λ _ _, Some (101%Z, ["unused"]);
     Action.renderMessages := λ _, Some {| Main.annotations := sample_annotations |};
     Action.update_check_run := λ _, Some "{}";
     Action.context_sha := "4f2c9d1";
     Action.context_owner := "step-security";
     Action.context_repo := "clippy-action";
     Action.os := "Linux";
     Action.arch := "x64";
     Action.startedAt := "2025-01-01T00:00:00.000Z";
     Action.completed := "2025-01-01T00:00:05.000Z";
     Action.elapsed := 5000%Z |}.

Definition sample_returned_inputs : Inputs.Inputs :=
  {| Inputs.working_directory := Some EmptyString;
     Inputs.all_features := true;
     Inputs.github_token := "ghp_token";
     Inputs.check_args := [];
     Inputs.forbid := [];
     Inputs.allow := ["clippy::all"; "clippy::cargo"];
     Inputs.deny := [];
     Inputs.args := [];
     Inputs.warn := [] |}.

Definition sample_create : Action.CheckRunCreate :=
  {| Action.create_owner := "step-security";
     Action.create_repo := "clippy-action";
     Action.name := "Clippy: Rust Stable 1.72.0-nightly (5680fa18f 2023-07-01)"
                    +:+ Main.newline +:+ " in ";
     Action.head_sha := "4f2c9d1";
     Action.create_status := "in_progress";
     Action.create_started_at := "2025-01-01T00:00:00.000Z" |}.

Definition sample_update : Main.CheckRunUpdate :=
  Main.update_of
    (Action.run_of (sample_host (inl 7%Z)) sample_returned_inputs "Stable" (inl 7%Z) 101%Z
       {| Main.annotations := sample_annotations |})
    7%Z.

Open Scope list_scope.

(** * Properties *)

(** ** Action inputs *)

Section InputsFacts.

Variable getInput : string → Inputs.InputOptions → string.
Variable trim : string → string.

Lemma elem_of_truthy (v : string) :
  v ∈ Inputs.truthy ↔ v = "true" ∨ v = "True" ∨ v = "TRUE".
Proof. unfold Inputs.truthy. rewrite !elem_of_union, !elem_of_singleton. tauto. Qed.

Lemma elem_of_falsy (v : string) :
  v ∈ Inputs.falsy ↔ v = "false" ∨ v = "False" ∨ v = "FALSE".
Proof. unfold Inputs.falsy. rewrite !elem_of_union, !elem_of_singleton. tauto. Qed.

Lemma Boolean_false (v : string) : Inputs.Boolean v = false ↔ v = EmptyString.
Proof. destruct v; simpl; split; congruence. Qed.

(** The four cases of [getBooleanInput], by the value [getInput] returns. *)
Lemma getBooleanInput_cases (name : string) (options : Inputs.InputOptions) :
  let value := getInput name options in
  (value = EmptyString → Inputs.getBooleanInput getInput name options = Inputs.Return false)
  ∧ (value = "true" ∨ value = "True" ∨ value = "TRUE" →
       Inputs.getBooleanInput getInput name options = Inputs.Return true)
  ∧ (value = "false" ∨ value = "False" ∨ value = "FALSE" →
       Inputs.getBooleanInput getInput name options = Inputs.Return false)
  ∧ (value ≠ EmptyString →
     ¬ (value = "true" ∨ value = "True" ∨ value = "TRUE") →
     ¬ (value = "false" ∨ value = "False" ∨ value = "FALSE") →
       Inputs.getBooleanInput getInput name options
       = Inputs.Throw (Inputs.YamlCoreSchemaError name value)).
Proof.
  intros value. unfold Inputs.getBooleanInput. fold value.
  repeat split.
  - intros ->. reflexivity.
  - intros Hv.
    assert (Inputs.Boolean value = true) as -> by (destruct Hv as [->|[->| ->]]; reflexivity).
    simpl. rewrite bool_decide_eq_true_2; [reflexivity | by apply elem_of_truthy].
  - intros Hv.
    assert (Inputs.Boolean value = true) as -> by (destruct Hv as [->|[->| ->]]; reflexivity).
    assert (value ∉ Inputs.truthy) as Hnt.
    { rewrite elem_of_truthy. destruct Hv as [->|[->| ->]]; intros [?|[?|?]]; discriminate. }
    simpl. rewrite (bool_decide_eq_false_2 _ Hnt).
    rewrite bool_decide_eq_true_2; [reflexivity | by apply elem_of_falsy].
  - intros Hne Ht Hf.
    destruct (Inputs.Boolean value) eqn:Hb; [| by apply Boolean_false in Hb].
    simpl. rewrite !bool_decide_eq_false_2; [reflexivity | |].
    + by rewrite elem_of_falsy.
    + by rewrite elem_of_truthy.
Qed.

(** C9: [getInputs] returns [null] exactly when the [token] input is the
    empty string.  [getBooleanInput] returns [false] on an empty value,
    [true] exactly for [true], [True] and [TRUE], [false] for [false],
    [False] and [FALSE], and throws for every other value; with a token,
    such a value of [all-features] makes [getInputs] throw, not return
    [null]. *)
Theorem getInputs_null_iff_token_empty :
  let opts := {| Inputs.required := None; Inputs.trimWhitespace := Some true |} in
  ((Inputs.getInputs getInput trim).2 = Inputs.Return None
     ↔ getInput "token" opts = EmptyString)
  ∧ (∀ name options,
       let value := getInput name options in
       (value = EmptyString →
          Inputs.getBooleanInput getInput name options = Inputs.Return false)
       ∧ (Inputs.getBooleanInput getInput name options = Inputs.Return true
            ↔ value = "true" ∨ value = "True" ∨ value = "TRUE")
       ∧ (value = "false" ∨ value = "False" ∨ value = "FALSE" →
            Inputs.getBooleanInput getInput name options = Inputs.Return false)
       ∧ (value ≠ EmptyString →
          ¬ (value = "true" ∨ value = "True" ∨ value = "TRUE") →
          ¬ (value = "false" ∨ value = "False" ∨ value = "FALSE") →
            Inputs.getBooleanInput getInput name options
            = Inputs.Throw (Inputs.YamlCoreSchemaError name value)))
  ∧ (let value := getInput "all-features" opts in
     getInput "token" opts ≠ EmptyString →
     value ≠ EmptyString →
     ¬ (value = "true" ∨ value = "True" ∨ value = "TRUE") →
     ¬ (value = "false" ∨ value = "False" ∨ value = "FALSE") →
       (Inputs.getInputs getInput trim).2
       = Inputs.Throw (Inputs.YamlCoreSchemaError "all-features" value)).
Proof.
  intros opts. split; [| split].
  - unfold Inputs.getInputs. fold opts.
    destruct (decide (getInput "token" opts = EmptyString)) as [He|Hne].
    + rewrite (bool_decide_eq_true_2 _ He). simpl. tauto.
    + rewrite (bool_decide_eq_false_2 _ Hne).
      destruct (Inputs.getBooleanInput getInput "all-features" opts); simpl;
        split; intros; (discriminate || contradiction).
  - intros name options value.
    destruct (getBooleanInput_cases name options) as (He & Ht & Hf & Hx).
    fold value in He, Ht, Hf, Hx.
    repeat split; try assumption.
    intros Hret.
    destruct (decide (value = EmptyString)) as [Hv|Hv].
    { rewrite (He Hv) in Hret. discriminate. }
    destruct (decide (value = "true" ∨ value = "True" ∨ value = "TRUE")) as [|Hnt];
      [assumption|].
    destruct (decide (value = "false" ∨ value = "False" ∨ value = "FALSE")) as [Hvf|Hnf].
    { rewrite (Hf Hvf) in Hret. discriminate. }
    rewrite (Hx Hv Hnt Hnf) in Hret. discriminate.
  - intros value Htok Hv Hnt Hnf.
    unfold Inputs.getInputs. fold opts.
    rewrite (bool_decide_eq_false_2 _ Htok).
    destruct (getBooleanInput_cases "all-features" opts) as (_ & _ & _ & Hx).
    fold value in Hx. rewrite (Hx Hv Hnt Hnf). reflexivity.
Qed.

End InputsFacts.

Example split_keeps_empty_pieces :
  Inputs.split ","%char "clippy::all,,clippy::cargo" = ["clippy::all"; EmptyString; "clippy::cargo"].
Proof. reflexivity. Qed.

Example getInputs_sample_TRUE :
  Inputs.getInputs (sample_inputs "TRUE") id
  = ([Inputs.warning
        "The `allow` input is deprecated in v1.4 and can be used within the `check-args` input"],
     Inputs.Return (Some {| Inputs.working_directory := Some EmptyString;
                            Inputs.all_features := true;
                            Inputs.github_token := "ghp_token";
                            Inputs.check_args := [];
                            Inputs.forbid := [];
                            Inputs.allow := ["clippy::all"; "clippy::cargo"];
                            Inputs.deny := [];
                            Inputs.args := [];
                            Inputs.warn := [] |})).
Proof. vm_compute. reflexivity. Qed.

Example getInputs_sample_yes :
  (Inputs.getInputs (sample_inputs "yes") id).2
  = Inputs.Throw (Inputs.YamlCoreSchemaError "all-features" "yes").
Proof. vm_compute. reflexivity. Qed.

Example getInputs_no_token :
  Inputs.getInputs (λ _ _, EmptyString) id
  = ([Inputs.error "Missing required input: `token`"], Inputs.Return None).
Proof. vm_compute. reflexivity. Qed.

(** ** Publication of the check run *)

Section MainFacts.

Import Main.

Lemma truthy_spec (x : option string) :
  Is_true (truthy x) ↔ ∃ f, x = Some f ∧ f ≠ EmptyString.
Proof.
  destruct x as [[|c s]|]; simpl; split; try tauto.
  - intros (f & [= <-] & Hf). by apply Hf.
  - intros _. by eexists.
  - intros (f & [=] & _).
Qed.

Lemma elem_of_publish (l : list Annotation) (p : CheckAnnotation) :
  p ∈ publish l ↔ ∃ a, a ∈ l ∧ Is_true (truthy (file a)) ∧ p = toCheckAnnotation a.
Proof.
  unfold publish. rewrite list_elem_of_fmap. split.
  - intros (a & -> & Ha). apply list_elem_of_filter in Ha as [Hf Ha]. eauto.
  - intros (a & Ha & Hf & ->). exists a. split; [done|]. by apply list_elem_of_filter.
Qed.

Lemma annotation_level_of_cases (s : string) :
  (s = "error" → annotation_level_of s = AnnotationLevel.failure)
  ∧ (s = "warning" → annotation_level_of s = AnnotationLevel.warning)
  ∧ (s ≠ "error" → s ≠ "warning" → annotation_level_of s = AnnotationLevel.notice).
Proof.
  unfold annotation_level_of. repeat split.
  - intros ->. reflexivity.
  - intros ->. reflexivity.
  - intros He Hw.
    apply String.eqb_neq in He. apply String.eqb_neq in Hw. by rewrite He, Hw.
Qed.

(** C2: every published annotation comes from an annotation of the
    renderer, and its level is computed from that annotation's severity
    string alone: [error] gives [failure], [warning] gives [warning],
    [note] gives [notice], and so does every other string. *)
Theorem published_level_from_severity (l : list Annotation) (p : CheckAnnotation) :
  p ∈ publish l →
  ∃ a, a ∈ l ∧ p = toCheckAnnotation a
       ∧ (level a = "error" → annotation_level p = AnnotationLevel.failure)
       ∧ (level a = "warning" → annotation_level p = AnnotationLevel.warning)
       ∧ (level a = "note" → annotation_level p = AnnotationLevel.notice)
       ∧ (level a ≠ "error" → level a ≠ "warning" →
            annotation_level p = AnnotationLevel.notice).
Proof.
  intros (a & Ha & _ & ->)%elem_of_publish.
  exists a. destruct (annotation_level_of_cases (level a)) as (He & Hw & Hn).
  repeat split; simpl; try assumption.
  intros Hl. apply Hn; rewrite Hl; discriminate.
Qed.

(** C10: in every published annotation [start_line] and [end_line] are 0
    when the renderer's value is absent or 0 and that value otherwise,
    [start_column] and [end_column] are the renderer's values, absent or
    not, [message] is the title and [raw_details] the rendered text. *)
Theorem published_positions_and_text (l : list Annotation) (p : CheckAnnotation) :
  p ∈ publish l →
  ∃ a, a ∈ l
       ∧ (startLine a = None ∨ startLine a = Some 0%Z → start_line p = 0%Z)
       ∧ (∀ n, startLine a = Some n → start_line p = n)
       ∧ (endLine a = None ∨ endLine a = Some 0%Z → end_line p = 0%Z)
       ∧ (∀ n, endLine a = Some n → end_line p = n)
       ∧ start_column p = startColumn a
       ∧ end_column p = endColumn a
       ∧ message p = title a
       ∧ raw_details p = rendered a.
Proof.
  intros (a & Ha & _ & ->)%elem_of_publish.
  exists a. simpl. unfold or_zero.
  repeat split; try assumption.
  - intros [->| ->]; reflexivity.
  - intros n ->. destruct (Z.eqb_spec n 0); congruence.
  - intros [->| ->]; reflexivity.
  - intros n ->. destruct (Z.eqb_spec n 0); congruence.
Qed.

Variable request : CheckRunUpdate → option string.

Lemma requests_of_main (r : Run) (u : CheckRunUpdate) :
  u ∈ requests (main request r) →
  ∃ check_run, id r = Some check_run ∧ canPerformCheckRun r = true ∧ u = update_of r check_run.
Proof.
  unfold main. destruct (canPerformCheckRun r), (id r) as [i|]; simpl;
    try (intros H; by apply elem_of_nil in H).
  destruct (request (update_of r i)); simpl;
    intros ->%list_elem_of_singleton; eauto.
Qed.

Lemma output_annotations_update (r : Run) (i : Z) :
  output_annotations (output (update_of r i)) = publish (annotations (renderer r)).
Proof. simpl. unfold output_of. by destruct (exitCode r =? 0)%Z. Qed.

(** [Main.main] alone: the conclusion it sends follows the exit code it was
    given, and it sets that exit code unless the update request rejects. *)
Lemma verdict_after_rendering (r : Run) :
  (∀ u, u ∈ requests (main request r) →
     (conclusion u = Conclusion.success ↔ exitCode r = 0%Z)
     ∧ (conclusion u = Conclusion.failure ↔ exitCode r ≠ 0%Z)
     ∧ output_annotations (output u) = publish (annotations (renderer r)))
  ∧ ((∀ u, u ∈ requests (main request r) → is_Some (request u)) →
       process (main request r) = exitCode_set (exitCode r))
  ∧ (∀ u, u ∈ requests (main request r) → request u = None →
       process (main request r) = exit 1).
Proof.
  split; [|split].
  - intros u (i & _ & _ & ->)%requests_of_main.
    split; [|split]; [| |apply output_annotations_update]; simpl;
      destruct (Z.eqb_spec (exitCode r) 0); split; congruence.
  - unfold main. destruct (canPerformCheckRun r), (id r) as [i|]; try reflexivity.
    destruct (request (update_of r i)) eqn:Hreq; simpl; [reflexivity|].
    intros Hall. destruct (Hall (update_of r i)) as [d Hd]; [apply list_elem_of_here|].
    congruence.
  - unfold main. intros u.
    destruct (canPerformCheckRun r), (id r) as [i|]; simpl;
      try (intros H; by apply elem_of_nil in H).
    destruct (request (update_of r i)) eqn:Hreq; simpl;
      intros ->%list_elem_of_singleton; congruence.
Qed.

End MainFacts.

(** *** Concrete runs *)

Example publish_sample :
  Main.publish sample_annotations
  = [ {| Main.annotation_level := Main.AnnotationLevel.failure;
         Main.path := Some "src/lib.rs";
         Main.start_line := 10; Main.end_line := 10;
         Main.start_column := Some 5%Z; Main.end_column := Some 9%Z;
         Main.raw_details := "error: unused variable: `x`";
         Main.message := Some "unused variable: `x`" |};
      {| Main.annotation_level := Main.AnnotationLevel.notice;
         Main.path := Some "src/main.rs";
         Main.start_line := 0; Main.end_line := 0;
         Main.start_column := None; Main.end_column := Some 3%Z;
         Main.raw_details := "help: consider using `_x`";
         Main.message := Some "consider using `_x`" |} ].
Proof. reflexivity. Qed.

Example level_is_case_sensitive :
  Main.annotation_level_of "Error" = Main.AnnotationLevel.notice.
Proof. reflexivity. Qed.

Lemma published_level_from_severity_witness :
  ∃ a, a ∈ sample_annotations
       ∧ Main.toCheckAnnotation unused_variable = Main.toCheckAnnotation a
       ∧ (Main.level a = "error" →
            Main.annotation_level (Main.toCheckAnnotation unused_variable)
            = Main.AnnotationLevel.failure)
       ∧ (Main.level a = "warning" →
            Main.annotation_level (Main.toCheckAnnotation unused_variable)
            = Main.AnnotationLevel.warning)
       ∧ (Main.level a = "note" →
            Main.annotation_level (Main.toCheckAnnotation unused_variable)
            = Main.AnnotationLevel.notice)
       ∧ (Main.level a ≠ "error" → Main.level a ≠ "warning" →
            Main.annotation_level (Main.toCheckAnnotation unused_variable)
            = Main.AnnotationLevel.notice).
Proof.
  apply (published_level_from_severity sample_annotations
           (Main.toCheckAnnotation unused_variable)).
  apply list_elem_of_here.
Defined.

Lemma published_positions_and_text_witness :
  ∃ a, a ∈ sample_annotations
       ∧ (Main.startLine a = None ∨ Main.startLine a = Some 0%Z →
            Main.start_line (Main.toCheckAnnotation help_without_range) = 0%Z)
       ∧ (∀ n, Main.startLine a = Some n →
            Main.start_line (Main.toCheckAnnotation help_without_range) = n)
       ∧ (Main.endLine a = None ∨ Main.endLine a = Some 0%Z →
            Main.end_line (Main.toCheckAnnotation help_without_range) = 0%Z)
       ∧ (∀ n, Main.endLine a = Some n →
            Main.end_line (Main.toCheckAnnotation help_without_range) = n)
       ∧ Main.start_column (Main.toCheckAnnotation help_without_range) = Main.startColumn a
       ∧ Main.end_column (Main.toCheckAnnotation help_without_range) = Main.endColumn a
       ∧ Main.message (Main.toCheckAnnotation help_without_range) = Main.title a
       ∧ Main.raw_details (Main.toCheckAnnotation help_without_range) = Main.rendered a.
Proof.
  apply (published_positions_and_text sample_annotations
           (Main.toCheckAnnotation help_without_range)).
  apply list_elem_of_further, list_elem_of_here.
Defined.

Example clean_run_resolved :
  Main.process (Main.main (λ _, Some "{}") clean_run) = Main.exitCode_set 0
  ∧ Main.conclusion <$> Main.requests (Main.main (λ _, Some "{}") clean_run)
    = [Main.Conclusion.success]
  ∧ (length ∘ Main.output_annotations ∘ Main.output)
      <$> Main.requests (Main.main (λ _, Some "{}") clean_run) = [2].
Proof. repeat split. Qed.


(** ** Deduplication, grouping and rendering *)

Section KeepFirst.

Context {A K : Type} `{EqDecision K} (key : A → K).

Lemma keep_first_elem_of (seen : list K) (l : list A) (x : A) :
  x ∈ Clippy.keep_first key seen l → x ∈ l ∧ key x ∉ seen.
Proof.
  revert seen. induction l as [|a l IH]; intros seen; simpl.
  - intros H'. by apply elem_of_nil in H'.
  - destruct (decide (key a ∈ seen)) as [Hin|Hout].
    + intros [Hx Hk]%IH. split; [by apply list_elem_of_further | done].
    + intros [->|[Hx Hk]%IH]%elem_of_cons.
      * split; [apply list_elem_of_here | done].
      * split; [by apply list_elem_of_further |].
        intros Hs. apply Hk. apply elem_of_app. by left.
Qed.

Lemma keep_first_NoDup (seen : list K) (l : list A) :
  NoDup (key <$> Clippy.keep_first key seen l).
Proof.
  revert seen. induction l as [|a l IH]; intros seen; simpl.
  - apply NoDup_nil_2.
  - destruct (decide (key a ∈ seen)); [apply IH|].
    rewrite fmap_cons. apply NoDup_cons. split; [|apply IH].
    intros (y & Hy & [_ Hk]%keep_first_elem_of)%list_elem_of_fmap.
    apply Hk. apply elem_of_app. right. rewrite Hy. apply list_elem_of_here.
Qed.

Lemma keep_first_covers (seen : list K) (l : list A) (x : A) :
  x ∈ l → key x ∉ seen → ∃ y, y ∈ Clippy.keep_first key seen l ∧ key y = key x.
Proof.
  revert seen. induction l as [|a l IH]; intros seen; simpl.
  - intros H'. by apply elem_of_nil in H'.
  - intros [->|Hx]%elem_of_cons Hk.
    + rewrite decide_False by done. exists a. split; [apply list_elem_of_here | done].
    + destruct (decide (key a ∈ seen)) as [Hin|Hout].
      * by apply IH.
      * destruct (decide (key x = key a)) as [Heq|Hne].
        { exists a. split; [apply list_elem_of_here | done]. }
        destruct (IH (seen ++ [key a]) Hx) as (y & Hy & Hky).
        { rewrite elem_of_app, list_elem_of_singleton. tauto. }
        exists y. split; [by apply list_elem_of_further | done].
Qed.

Lemma keep_first_first (seen : list K) (l : list A) (x : A) :
  x ∈ Clippy.keep_first key seen l →
  ∃ i, l !! i = Some x ∧ ∀ j y, l !! j = Some y → j < i → key y ≠ key x.
Proof.
  revert seen. induction l as [|a l IH]; intros seen; simpl.
  - intros H'. by apply elem_of_nil in H'.
  - destruct (decide (key a ∈ seen)) as [Hin|Hout].
    + intros Hx. destruct (IH _ Hx) as (i & Hi & Hfirst).
      apply keep_first_elem_of in Hx as [_ Hk].
      exists (S i). split; [done|]. intros [|j] y Hj Hlt.
      * injection Hj as <-. congruence.
      * apply (Hfirst j); [done | lia].
    + intros [->|Hx]%elem_of_cons.
      * exists 0. split; [done|]. intros; lia.
      * destruct (IH _ Hx) as (i & Hi & Hfirst).
        apply keep_first_elem_of in Hx as [_ Hk].
        exists (S i). split; [done|]. intros [|j] y Hj Hlt.
        -- injection Hj as <-. intros Heq. apply Hk.
           rewrite elem_of_app, list_elem_of_singleton. by right.
        -- apply (Hfirst j); [done | lia].
Qed.

Lemma keep_first_sublist (seen : list K) (l : list A) :
  Clippy.keep_first key seen l `sublist_of` l.
Proof.
  revert seen. induction l as [|a l IH]; intros seen; simpl; [done|].
  destruct (decide (key a ∈ seen)).
  - by apply sublist_cons.
  - by apply sublist_skip.
Qed.

(** The first position of a key is unique. *)
Lemma first_position_unique (l : list A) (i j : nat) (x y : A) :
  l !! i = Some x → (∀ k z, l !! k = Some z → k < i → key z ≠ key x) →
  l !! j = Some y → (∀ k z, l !! k = Some z → k < j → key z ≠ key y) →
  key x = key y → i = j ∧ x = y.
Proof.
  intros Hi Hfi Hj Hfj Heq.
  destruct (lt_eq_lt_dec i j) as [[Hlt| ->]|Hlt].
  - exfalso. by apply (Hfj i x).
  - split; [done | congruence].
  - exfalso. by apply (Hfi j y).
Qed.

End KeepFirst.

Section AggregatorFacts.

Import Clippy.

Lemma observe_keep_first (rs : list DiagnosticRecord) (st : Aggregator) :
  groups (foldl observe st rs)
  = group_all (groups st) (keep_first aggregation_key (seen st) rs).
Proof.
  revert st. induction rs as [|r rs IH]; intros st; simpl; [done|].
  rewrite IH. unfold observe.
  destruct (decide (aggregation_key r ∈ seen st)); simpl; done.
Qed.

Lemma aggregate_survivors (rs : list DiagnosticRecord) :
  aggregate rs = group_all [] (survivors rs).
Proof. unfold aggregate. by rewrite observe_keep_first. Qed.

Lemma grouped_add (fk : option string) (r : DiagnosticRecord) (gs : list Group) :
  grouped (add_to_group fk r gs) ≡ₚ grouped gs ++ [r].
Proof.
  unfold grouped. induction gs as [|g gs IH]; simpl; [done|].
  destruct (decide (group_file g = fk)); simpl.
  - rewrite <- !app_assoc. apply Permutation_app_head, Permutation_app_comm.
  - rewrite IH. by rewrite app_assoc.
Qed.

Lemma grouped_group_all (ss : list DiagnosticRecord) (gs : list Group) :
  grouped (group_all gs ss) ≡ₚ grouped gs ++ ss.
Proof.
  revert gs. induction ss as [|r ss IH]; intros gs; simpl.
  - by rewrite app_nil_r.
  - unfold group_all in *. simpl. rewrite IH, grouped_add.
    by rewrite <- app_assoc.
Qed.

Lemma grouped_aggregate (rs : list DiagnosticRecord) :
  grouped (aggregate rs) ≡ₚ survivors rs.
Proof. rewrite aggregate_survivors. apply grouped_group_all. Qed.

Lemma files_add (fk : option string) (r : DiagnosticRecord) (gs : list Group) :
  group_file <$> add_to_group fk r gs
  = if decide (fk ∈ group_file <$> gs) then group_file <$> gs
    else (group_file <$> gs) ++ [fk].
Proof.
  induction gs as [|g gs IH]; [done|].
  cbn [add_to_group]. rewrite fmap_cons.
  destruct (decide (group_file g = fk)) as [<-|Hne].
  - rewrite fmap_cons. cbn [group_file].
    rewrite decide_True; [done | apply list_elem_of_here].
  - rewrite fmap_cons, IH. destruct (decide (fk ∈ group_file <$> gs)) as [Hin|Hout].
    + rewrite decide_True; [done | by apply list_elem_of_further].
    + rewrite decide_False; [done|].
      intros [?|?]%elem_of_cons; congruence.
Qed.

Lemma files_group_all (ss : list DiagnosticRecord) (gs : list Group) :
  group_file <$> group_all gs ss
  = (group_file <$> gs) ++ keep_first id (group_file <$> gs) (file_key <$> ss).
Proof.
  revert gs. induction ss as [|r ss IH]; intros gs; simpl.
  - by rewrite app_nil_r.
  - unfold group_all in *. simpl. rewrite IH, files_add. unfold id at 2.
    destruct (decide (file_key r ∈ group_file <$> gs)); [done|].
    by rewrite <- app_assoc.
Qed.

Lemma key_determines_file (a b : DiagnosticRecord) :
  aggregation_key a = aggregation_key b → file_key a = file_key b.
Proof.
  unfold aggregation_key, file_key.
  destruct (primary_span a), (primary_span b); simpl; congruence.
Qed.

Lemma files_keep_first (rs : list DiagnosticRecord) (S : list AggregationKey)
    (F : list (option string)) :
  (∀ r, aggregation_key r ∈ S → file_key r ∈ F) →
  keep_first id F (file_key <$> keep_first aggregation_key S rs)
  = keep_first id F (file_key <$> rs).
Proof.
  revert S F. induction rs as [|r rs IH]; intros S F HSF; simpl; [done|].
  destruct (decide (aggregation_key r ∈ S)) as [Hin|Hout].
  - unfold id at 2. rewrite decide_True by auto. by apply IH.
  - simpl. unfold id at 1 3.
    destruct (decide (file_key r ∈ F)) as [HF|HF].
    + apply IH. intros r' [Hr'|Hr']%elem_of_app; [auto|].
      apply list_elem_of_singleton in Hr'.
      by rewrite (key_determines_file _ _ Hr').
    + f_equal. apply IH. intros r' [Hr'|Hr']%elem_of_app.
      * apply elem_of_app. left. auto.
      * apply list_elem_of_singleton in Hr'. apply elem_of_app. right.
        rewrite (key_determines_file _ _ Hr'). apply list_elem_of_here.
Qed.

Lemma files_aggregate (rs : list DiagnosticRecord) :
  group_file <$> aggregate rs = keep_first id [] (file_key <$> rs).
Proof.
  rewrite aggregate_survivors, files_group_all. simpl.
  unfold survivors. apply files_keep_first.
  intros r Hr. by apply elem_of_nil in Hr.
Qed.

Lemma files_aggregate_NoDup (rs : list DiagnosticRecord) :
  NoDup (group_file <$> aggregate rs).
Proof.
  rewrite files_aggregate.
  rewrite <- (list_fmap_id (keep_first id [] (file_key <$> rs))).
  apply (keep_first_NoDup id).
Qed.

Lemma records_of_add (fk fk' : option string) (r : DiagnosticRecord) (gs : list Group) :
  records_of fk' (add_to_group fk r gs)
  = records_of fk' gs ++ (if decide (fk = fk') then [r] else []).
Proof.
  induction gs as [|g gs IH]; simpl.
  - by destruct (decide (fk = fk')).
  - destruct (decide (group_file g = fk)) as [<-|Hne]; simpl.
    + destruct (decide (group_file g = fk')); [done | by rewrite app_nil_r].
    + destruct (decide (group_file g = fk')) as [<-|Hne'].
      * rewrite decide_False by done. by rewrite app_nil_r.
      * apply IH.
Qed.

Lemma records_of_group_all (fk : option string) (ss : list DiagnosticRecord) (gs : list Group) :
  records_of fk (group_all gs ss)
  = records_of fk gs ++ filter (λ r, file_key r = fk) ss.
Proof.
  revert gs. induction ss as [|r ss IH]; intros gs; simpl.
  - by rewrite app_nil_r.
  - unfold group_all in *. simpl. rewrite IH, records_of_add.
    rewrite filter_cons. rewrite <- app_assoc.
    by destruct (decide (file_key r = fk)).
Qed.

Lemma records_of_elem (gs : list Group) (g : Group) :
  NoDup (group_file <$> gs) → g ∈ gs → records_of (group_file g) gs = records g.
Proof.
  induction gs as [|g' gs IH]; simpl.
  - intros _ H'. by apply elem_of_nil in H'.
  - intros [Hout Hnd]%NoDup_cons [->|Hg]%elem_of_cons.
    + by rewrite decide_True.
    + rewrite decide_False; [by apply IH|].
      intros Heq. apply Hout. rewrite Heq. by apply list_elem_of_fmap_2.
Qed.

Lemma records_aggregate (rs : list DiagnosticRecord) (g : Group) :
  g ∈ aggregate rs →
  records g = filter (λ r, file_key r = group_file g) (survivors rs).
Proof.
  intros Hg. rewrite <- (records_of_elem (aggregate rs)) by
    (done || apply files_aggregate_NoDup).
  rewrite aggregate_survivors. apply records_of_group_all.
Qed.

End AggregatorFacts.

Section IndexOf.

Context {A : Type} `{EqDecision A}.

Lemma index_of_lookup (x : A) (l : list A) (i : nat) :
  Clippy.index_of x l = Some i → l !! i = Some x.
Proof.
  revert i. induction l as [|a l IH]; intros i; simpl; [done|].
  destruct (decide (a = x)) as [->|Hne].
  - by intros [= <-].
  - destruct (Clippy.index_of x l) as [i'|]; simpl; [|done].
    intros [= <-]. by apply IH.
Qed.

Lemma index_of_elem (x : A) (l : list A) :
  x ∈ l → ∃ i, Clippy.index_of x l = Some i.
Proof.
  induction l as [|a l IH]; simpl.
  - intros H'. by apply elem_of_nil in H'.
  - intros Hx. destruct (decide (a = x)) as [->|Hne]; [by eexists|].
    apply elem_of_cons in Hx as [->|Hx]; [done|].
    destruct (IH Hx) as [i ->]. by eexists.
Qed.

(** First occurrences keep the order of first positions. *)
Lemma keep_first_index_order (l seen : list A) (x y : A) (i j : nat) :
  Clippy.index_of x l = Some i → Clippy.index_of y l = Some j → i < j →
  x ∉ seen → y ∉ seen →
  ∃ p q, Clippy.index_of x (Clippy.keep_first id seen l) = Some p
         ∧ Clippy.index_of y (Clippy.keep_first id seen l) = Some q
         ∧ p < q.
Proof.
  revert seen i j. induction l as [|a l IH]; intros seen i j; simpl; [done|].
  destruct (decide (a = x)) as [->|Hax].
  - intros [= <-]. destruct (decide (x = y)) as [->|Hxy]; [intros [= <-]; lia|].
    destruct (Clippy.index_of y l) as [j'|] eqn:Hy; simpl; [|done].
    intros _ _ Hx Hys. unfold id at 1. rewrite decide_False by done.
    simpl. rewrite decide_True by done. rewrite decide_False by done.
    destruct (keep_first_covers id (seen ++ [x]) l y) as (y' & Hy' & Heq).
    { apply list_elem_of_lookup. exists j'. by apply index_of_lookup. }
    { unfold id. rewrite elem_of_app, list_elem_of_singleton. intros [?|?]; [done|congruence]. }
    unfold id in Heq. subst y'.
    destruct (index_of_elem _ _ Hy') as [q Hq].
    exists 0, (S q). simpl. rewrite decide_False by done. rewrite Hq.
    repeat split; (done || lia).
  - destruct (Clippy.index_of x l) as [i'|] eqn:Hx; simpl; [|done].
    intros [= <-]. destruct (decide (a = y)) as [->|Hay]; [intros [= <-]; lia|].
    destruct (Clippy.index_of y l) as [j'|] eqn:Hy; simpl; [|done].
    intros [= <-] Hlt Hxs Hys. unfold id at 1.
    destruct (decide (a ∈ seen)) as [Hin|Hout].
    + apply (IH seen i' j'); (done || lia).
    + destruct (IH (seen ++ [a]) i' j') as (p & q & Hp & Hq & Hpq); try (done || lia).
      { unfold id. rewrite elem_of_app, list_elem_of_singleton. intros [?|?]; [done|congruence]. }
      { unfold id. rewrite elem_of_app, list_elem_of_singleton. intros [?|?]; [done|congruence]. }
      simpl. rewrite !decide_False by done. rewrite Hp, Hq. simpl.
      exists (S p), (S q). repeat split; (done || lia).
Qed.

End IndexOf.

Section PipelineFacts.

Import Clippy.

(** C1: for every stream of decoded records, the groups of the aggregated
    output hold at most one record per aggregation key; each record they
    hold is the first record of the stream with its key; every key of the
    stream has its record in some group; and a later record whose key
    equals that of the first one, but which differs from it, for instance
    in its rendered text, is in no group. *)
Theorem first_record_of_a_key_survives (rs : list DiagnosticRecord) :
  let out := grouped (aggregate rs) in
  NoDup (aggregation_key <$> out)
  ∧ (∀ r, r ∈ out →
       ∃ i, rs !! i = Some r
            ∧ ∀ j y, rs !! j = Some y → j < i → aggregation_key y ≠ aggregation_key r)
  ∧ (∀ r, r ∈ rs → ∃ r0, r0 ∈ out ∧ aggregation_key r0 = aggregation_key r)
  ∧ (∀ i j a b,
       rs !! i = Some a →
       (∀ k y, rs !! k = Some y → k < i → aggregation_key y ≠ aggregation_key a) →
       rs !! j = Some b → aggregation_key b = aggregation_key a → b ≠ a →
       b ∉ out).
Proof.
  intros out.
  assert (∀ r, r ∈ out ↔ r ∈ survivors rs) as Hout.
  { intros r. unfold out. by rewrite grouped_aggregate. }
  assert (∀ r, r ∈ out →
            ∃ i, rs !! i = Some r
                 ∧ ∀ j y, rs !! j = Some y → j < i → aggregation_key y ≠ aggregation_key r)
    as Hfirst.
  { intros r Hr. apply Hout in Hr. by apply (keep_first_first aggregation_key []). }
  split; [|split; [|split]].
  - unfold out. rewrite grouped_aggregate. apply keep_first_NoDup.
  - exact Hfirst.
  - intros r Hr.
    destruct (keep_first_covers aggregation_key [] rs r Hr) as (r0 & Hr0 & Hk).
    { apply not_elem_of_nil. }
    exists r0. by rewrite Hout.
  - intros i j a b Hi Hfi Hj Hkey Hne Hb.
    destruct (Hfirst b Hb) as (j' & Hj' & Hfj).
    pose proof (first_position_unique aggregation_key rs i j' a b
                  Hi Hfi Hj' Hfj (eq_sym Hkey)) as [_ Heq].
    congruence.
Qed.

(** C4: there is one block per group, in group order, and the groups are
    in the order in which their file keys are first referenced in the input
    stream: when the group of a surviving record [a] is first referenced
    before the group of a surviving record [b], the block holding [a] comes
    before the block holding [b].  The records of a group, and the entries
    of its block, are the surviving records of its file in stream order.
    Neither file names nor severities play a part in the order. *)
Theorem blocks_follow_first_reference (rs : list DiagnosticRecord) :
  let gs := aggregate rs in
  blocks (render gs) = block_of <$> gs
  ∧ group_file <$> gs = keep_first id [] (file_key <$> rs)
  ∧ (∀ a b i j,
       a ∈ grouped gs → b ∈ grouped gs →
       index_of (file_key a) (file_key <$> rs) = Some i →
       index_of (file_key b) (file_key <$> rs) = Some j →
       i < j →
       ∃ p q ga gb,
         gs !! p = Some ga ∧ a ∈ records ga
         ∧ gs !! q = Some gb ∧ b ∈ records gb
         ∧ blocks (render gs) !! p = Some (block_of ga)
         ∧ blocks (render gs) !! q = Some (block_of gb)
         ∧ p < q)
  ∧ (∀ g, g ∈ gs →
       records g = filter (λ r, file_key r = group_file g) (survivors rs)
       ∧ entries (block_of g) = entry_of <$> records g)
  ∧ survivors rs `sublist_of` rs.
Proof.
  intros gs. split; [done|]. split; [apply files_aggregate|].
  split; [|split].
  - intros a b i j Ha Hb Hi Hj Hlt.
    destruct (keep_first_index_order (file_key <$> rs) [] _ _ i j Hi Hj Hlt)
      as (p & q & Hp & Hq & Hpq); try apply not_elem_of_nil.
    rewrite <- files_aggregate in Hp, Hq. fold gs in Hp, Hq.
    apply index_of_lookup, list_lookup_fmap_Some in Hp as (ga & Hfa & Hga).
    apply index_of_lookup, list_lookup_fmap_Some in Hq as (gb & Hfb & Hgb).
    exists p, q, ga, gb.
    assert (∀ x g n, x ∈ grouped gs → gs !! n = Some g → file_key x = group_file g →
              x ∈ records g) as Hin.
    { intros x g n Hx Hn Hf. rewrite (records_aggregate rs g).
      - apply list_elem_of_filter. split; [done|].
        unfold gs in Hx. by rewrite grouped_aggregate in Hx.
      - apply list_elem_of_lookup. by exists n. }
    simpl. rewrite !list_lookup_fmap, Hga, Hgb. simpl.
    repeat split; eauto.
  - intros g Hg. split; [by apply records_aggregate | done].
  - apply keep_first_sublist.
Qed.

Lemma decodeLine_noise (parse : string → option Message) (alias : string → option Severity)
    (line : string) :
  non_diagnostic parse line = true → decodeLine parse alias line = None.
Proof.
  unfold non_diagnostic, decodeLine. by destruct (parse line) as [[d|reason]|].
Qed.

Lemma omap_without (parse : string → option Message) (alias : string → option Severity)
    (l l' : list string) :
  without (non_diagnostic parse) l l' →
  omap (decodeLine parse alias) l' = omap (decodeLine parse alias) l.
Proof.
  induction 1 as [|x l l' _ IH|x l l' Hx _ IH]; cbn.
  - done.
  - by rewrite IH.
  - by rewrite (decodeLine_noise parse alias x Hx).
Qed.

(** C5: removing from a stream any lines that do not parse as structured
    diagnostic messages changes nothing in what the pipeline produces, the
    annotation list included; the pipeline finishes on every stream whose
    source ends normally, whatever its lines, and the one failure,
    [StreamReadFailure], is the failure of the line source. *)
Theorem noise_lines_change_nothing (parse : string → option Message)
    (alias : string → option Severity) :
  (∀ l l' e, without (non_diagnostic parse) l l' →
     run parse alias {| lines := l'; ending := e |}
     = run parse alias {| lines := l; ending := e |})
  ∧ (∀ src, ending src = end_of_stream →
       ∃ out, run parse alias src = Finished out)
  ∧ (∀ src, ending src = read_failure →
       ∃ out, run parse alias src = StreamReadFailure out).
Proof.
  split; [|split].
  - intros l l' e Hw. unfold run, decode. simpl.
    by rewrite (omap_without parse alias l l' Hw).
  - intros src He. unfold run, decode. rewrite He. by eexists.
  - intros src He. unfold run, decode. rewrite He. by eexists.
Qed.



(** A severity string outside the known set and the aliases is [Note], and
    its annotations are [notice]. *)
Lemma unrecognized_severity_is_notice (alias : string → option Severity) (s : string) :
  s ≠ "error" → s ≠ "warning" → s ≠ "note" → alias s = None →
  decodeSeverity alias s = Note ∧ level_of (decodeSeverity alias s) = notice.
Proof.
  intros He Hw Hn Ha. unfold decodeSeverity.
  apply String.eqb_neq in He, Hw, Hn. by rewrite He, Hw, Hn, Ha.
Qed.

(** A surviving record without a primary span has its entry in the block
    headed [general], and its annotation, which has no file, is in the
    annotation list. *)
Lemma record_without_span_is_rendered (rs : list DiagnosticRecord) (r : DiagnosticRecord) :
  r ∈ grouped (aggregate rs) → primary_span r = None →
  ∃ g, g ∈ aggregate rs
       ∧ header (block_of g) = "general"
       ∧ entry_of r ∈ entries (block_of g)
       ∧ annotation_file (annotation_of r) = None
       ∧ annotation_of r ∈ annotations (render (aggregate rs)).
Proof.
  intros (g & Hr & Hg)%list_elem_of_bind Hspan.
  exists g. split; [done|].
  assert (group_file g = None) as Hfile.
  { rewrite (records_aggregate rs g Hg) in Hr.
    apply list_elem_of_filter in Hr as [<- _]. unfold file_key. by rewrite Hspan. }
  unfold block_of. simpl. rewrite Hfile, Hspan. simpl.
  repeat split; [by apply list_elem_of_fmap_2|].
  apply list_elem_of_bind. exists g. split; [|done].
  by apply list_elem_of_fmap_2.
Qed.

End PipelineFacts.

Section PublicationFacts.

Variable request : Main.CheckRunUpdate → option string.

(** C3: [main] sends one update when the check run could be created, and
    none otherwise.  The annotations of the update are those of the
    renderer whose [file] is a non-empty string, in the renderer's order,
    and no others: an annotation without a file is not sent.  On the side
    of the renderer, a surviving record without a primary span has its
    entry in the block headed [general], and its annotation has no
    file. *)
Theorem published_iff_file_non_empty (r : Main.Run) :
  Main.requests (Main.main request r)
  = match Main.canPerformCheckRun r, Main.id r with
    | true, Some check_run => [Main.update_of r check_run]
    | _, _ => []
    end
  ∧ (∀ check_run,
       Main.output_annotations (Main.output (Main.update_of r check_run))
       = Main.toCheckAnnotation
           <$> filter (λ a, Is_true (Main.truthy (Main.file a)))
                 (Main.annotations (Main.renderer r)))
  ∧ (∀ check_run p,
       p ∈ Main.output_annotations (Main.output (Main.update_of r check_run))
       ↔ ∃ a, a ∈ Main.annotations (Main.renderer r)
              ∧ (∃ f, Main.file a = Some f ∧ f ≠ EmptyString)
              ∧ p = Main.toCheckAnnotation a)
  ∧ (∀ check_run a,
       a ∈ Main.annotations (Main.renderer r) → Main.file a = None →
       Main.toCheckAnnotation a
       ∉ Main.output_annotations (Main.output (Main.update_of r check_run)))
  ∧ (∀ rs record,
       record ∈ Clippy.grouped (Clippy.aggregate rs) →
       Clippy.primary_span record = None →
       ∃ g, g ∈ Clippy.aggregate rs
            ∧ Clippy.header (Clippy.block_of g) = "general"
            ∧ Clippy.entry_of record ∈ Clippy.entries (Clippy.block_of g)
            ∧ Clippy.annotation_file (Clippy.annotation_of record) = None).
Proof.
  split; [|split; [|split; [|split]]].
  - unfold Main.main.
    destruct (Main.canPerformCheckRun r), (Main.id r) as [i|]; try done.
    by destruct (request (Main.update_of r i)).
  - intros i. by rewrite output_annotations_update.
  - intros i p. rewrite output_annotations_update, elem_of_publish.
    by setoid_rewrite truthy_spec.
  - intros i a Ha Hnone. rewrite output_annotations_update.
    intros (b & _ & Hb & Heq)%elem_of_publish.
    apply truthy_spec in Hb as (f & Hb & _).
    apply (f_equal Main.path) in Heq. simpl in Heq. congruence.
  - intros rs record Hrecord Hspan.
    destruct (record_without_span_is_rendered rs record Hrecord Hspan)
      as (g & Hg & Hheader & Hentry & Hfile & _).
    by exists g.
Qed.

End PublicationFacts.

(** *** The pipeline on concrete streams *)

Example decode_noisy_lines :
  Clippy.decode sample_parse sample_alias
    {| Clippy.lines := noisy_lines; Clippy.ending := Clippy.end_of_stream |}
  = Clippy.Finished sample_records.
Proof. reflexivity. Qed.

Example decode_blank_line :
  Clippy.decodeLine sample_parse sample_alias "blank" = None.
Proof. reflexivity. Qed.

Example decodeSeverity_samples :
  Clippy.decodeSeverity sample_alias <$>
    ["error"; "warning"; "note"; "help"; "Error"; "error: internal compiler error"]
  = [Clippy.Error; Clippy.Warning; Clippy.Note; Clippy.Note; Clippy.Note; Clippy.Error].
Proof. reflexivity. Qed.

(** Groups come in order of first reference, [src/main.rs] before
    [src/lib.rs], and the second report of the unused variable is gone. *)
Example aggregate_sample :
  Clippy.aggregate sample_records
  = [ {| Clippy.group_file := Some "src/main.rs"; Clippy.records := [help_record] |};
      {| Clippy.group_file := Some "src/lib.rs"; Clippy.records := [unused_record] |};
      {| Clippy.group_file := None; Clippy.records := [deprecated_record] |} ].
Proof. vm_compute. reflexivity. Qed.

Example headers_sample :
  Clippy.header <$> Clippy.blocks (Clippy.render (Clippy.aggregate sample_records))
  = ["src/main.rs"; "src/lib.rs"; "general"].
Proof. vm_compute. reflexivity. Qed.

(** Two identical diagnostics give one annotation. *)
Example two_identical_diagnostics :
  Clippy.run sample_parse sample_alias
    {| Clippy.lines := ["unused"; "unused"]; Clippy.ending := Clippy.end_of_stream |}
  = Clippy.Finished
      {| Clippy.blocks :=
           [ {| Clippy.header := "src/lib.rs";
                Clippy.entries :=
                  [ {| Clippy.tag := Clippy.Error;
                       Clippy.entry_title := "unused variable: `x`";
                       Clippy.detail := "error: unused variable: `x`" |} ] |} ];
         Clippy.annotations :=
           [ {| Clippy.annotation_file := Some "src/lib.rs";
                Clippy.annotation_start_line := 10;
                Clippy.annotation_end_line := 10;
                Clippy.annotation_start_column := Some 5%N;
                Clippy.annotation_end_column := Some 9%N;
                Clippy.annotation_level := Clippy.failure;
                Clippy.raw_details := "error: unused variable: `x`";
                Clippy.annotation_message := "unused variable: `x`" |} ] |}.
Proof. vm_compute. reflexivity. Qed.

(** A diagnostic without spans is rendered under [general] and its
    annotation has no file. *)
Example diagnostic_without_spans :
  Clippy.run sample_parse sample_alias
    {| Clippy.lines := ["deprecated"]; Clippy.ending := Clippy.end_of_stream |}
  = Clippy.Finished
      {| Clippy.blocks :=
           [ {| Clippy.header := "general";
                Clippy.entries :=
                  [ {| Clippy.tag := Clippy.Warning;
                       Clippy.entry_title := "deprecated attribute";
                       Clippy.detail := "warning: deprecated attribute" |} ] |} ];
         Clippy.annotations :=
           [ {| Clippy.annotation_file := None;
                Clippy.annotation_start_line := 0;
                Clippy.annotation_end_line := 0;
                Clippy.annotation_start_column := None;
                Clippy.annotation_end_column := None;
                Clippy.annotation_level := Clippy.warning;
                Clippy.raw_details := "warning: deprecated attribute";
                Clippy.annotation_message := "deprecated attribute" |} ] |}.
Proof. vm_compute. reflexivity. Qed.

(** A hundred reports of one diagnostic leave one record. *)
Example hundred_duplicates :
  length (Clippy.grouped (Clippy.aggregate (replicate 100 unused_record))) = 1.
Proof. vm_compute. reflexivity. Qed.

Example read_failure_is_surfaced :
  Clippy.run sample_parse sample_alias
    {| Clippy.lines := ["   Compiling clippy-action v1.0.0"];
       Clippy.ending := Clippy.read_failure |}
  = Clippy.StreamReadFailure {| Clippy.blocks := []; Clippy.annotations := [] |}.
Proof. reflexivity. Qed.

Lemma without_noisy_lines :
  Clippy.without (Clippy.non_diagnostic sample_parse) noisy_lines quiet_lines.
Proof.
  unfold noisy_lines, quiet_lines.
  apply Clippy.without_keep.
  apply Clippy.without_drop; [reflexivity|].
  apply Clippy.without_keep, Clippy.without_keep.
  apply Clippy.without_drop; [reflexivity|].
  apply Clippy.without_keep.
  apply Clippy.without_drop; [reflexivity|].
  apply Clippy.without_keep, Clippy.without_nil.
Defined.

Lemma noise_lines_change_nothing_witness :
  Clippy.run sample_parse sample_alias
    {| Clippy.lines := quiet_lines; Clippy.ending := Clippy.end_of_stream |}
  = Clippy.run sample_parse sample_alias
      {| Clippy.lines := noisy_lines; Clippy.ending := Clippy.end_of_stream |}.
Proof.
  apply (proj1 (noise_lines_change_nothing sample_parse sample_alias)).
  apply without_noisy_lines.
Defined.

(** The later report of the unused variable, whose rendered text differs,
    is in no group. *)
Lemma first_record_of_a_key_survives_witness :
  unused_record_bin ∉ Clippy.grouped (Clippy.aggregate sample_records).
Proof.
  apply (proj2 (proj2 (proj2 (first_record_of_a_key_survives sample_records)))
           1 3 unused_record unused_record_bin).
  - reflexivity.
  - intros [|[|k]] y Hk Hlt; [|lia..].
    injection Hk as <-. discriminate.
  - reflexivity.
  - reflexivity.
  - discriminate.
Defined.

(** [src/main.rs] is referenced first, at line 0 of the stream, and
    [src/lib.rs] at line 1: the block of the former comes first. *)
Lemma blocks_follow_first_reference_witness :
  ∃ p q ga gb,
    Clippy.aggregate sample_records !! p = Some ga ∧ help_record ∈ Clippy.records ga
    ∧ Clippy.aggregate sample_records !! q = Some gb ∧ unused_record ∈ Clippy.records gb
    ∧ Clippy.blocks (Clippy.render (Clippy.aggregate sample_records)) !! p
      = Some (Clippy.block_of ga)
    ∧ Clippy.blocks (Clippy.render (Clippy.aggregate sample_records)) !! q
      = Some (Clippy.block_of gb)
    ∧ p < q.
Proof.
  apply (proj1 (proj2 (proj2 (blocks_follow_first_reference sample_records)))
           help_record unused_record 0 1).
  - apply list_elem_of_here.
  - apply list_elem_of_further, list_elem_of_here.
  - reflexivity.
  - reflexivity.
  - lia.
Defined.

(** ** The inputs and [main], beyond the publication *)

Section SplitFacts.

Variable sep : ascii.

Lemma split_not_nil (s : string) : Inputs.split sep s ≠ [].
Proof.
  destruct s as [|c s]; simpl; [done|].
  destruct (Ascii.eqb c sep); [done|].
  by destruct (Inputs.split sep s).
Qed.

Lemma concat_cons_cons (d x y : string) (l : list string) :
  String.concat d (x :: y :: l) = x +:+ d +:+ String.concat d (y :: l).
Proof. reflexivity. Qed.

Lemma split_concat (s : string) :
  String.concat (String sep EmptyString) (Inputs.split sep s) = s.
Proof.
  induction s as [|c s IH]; simpl; [done|].
  destruct (Ascii.eqb_spec c sep) as [->|Hne].
  - pose proof (split_not_nil s) as Hnil.
    destruct (Inputs.split sep s) as [|w ws]; [done|].
    rewrite concat_cons_cons, IH. reflexivity.
  - pose proof (split_not_nil s) as Hnil.
    destruct (Inputs.split sep s) as [|w ws]; [done|].
    destruct ws as [|w' ws].
    + simpl in *. by rewrite IH.
    + rewrite concat_cons_cons in *. rewrite <- IH. reflexivity.
Qed.

Lemma split_no_separator (s : string) :
  Forall (λ p, sep ∉ list_ascii_of_string p) (Inputs.split sep s).
Proof.
  induction s as [|c s IH]; simpl.
  - apply Forall_singleton. simpl. apply not_elem_of_nil.
  - destruct (Ascii.eqb_spec c sep) as [->|Hne].
    + apply Forall_cons. split; [apply not_elem_of_nil | done].
    + destruct (Inputs.split sep s) as [|w ws].
      * apply Forall_singleton. simpl.
        intros [?|H']%elem_of_cons; [done | by apply elem_of_nil in H'].
      * apply Forall_cons in IH as [Hw Hws]. apply Forall_cons. split; [|done].
        simpl. intros [?|?]%elem_of_cons; done.
Qed.


(** The pieces but the last are each followed by a separator; the last
    piece ends the string. *)
Lemma split_spec (s : string) :
  ∃ ps p, Inputs.split sep s = ps ++ [p]
          ∧ list_ascii_of_string s
            = (ps ≫= λ q, list_ascii_of_string q ++ [sep]) ++ list_ascii_of_string p
          ∧ (sep ∉ list_ascii_of_string p).
Proof.
  induction s as [|c s (ps & p & Hsplit & Hs & Hp)]; simpl.
  - exists [], EmptyString. repeat split. apply not_elem_of_nil.
  - destruct (Ascii.eqb_spec c sep) as [->|Hne].
    + exists (EmptyString :: ps), p. rewrite Hsplit, Hs. done.
    + rewrite Hsplit. destruct ps as [|q ps]; simpl in *.
      * exists [], (String c p). simpl. rewrite Hs. repeat split.
        intros [?|?]%elem_of_cons; done.
      * exists (String c q :: ps), p. simpl. rewrite Hs. done.
Qed.

Lemma split_last (s : string) :
  ∃ pre p, last (Inputs.split sep s) = Some p
           ∧ list_ascii_of_string s = pre ++ list_ascii_of_string p
           ∧ (sep ∉ list_ascii_of_string p)
           ∧ (pre = [] ∨ last pre = Some sep).
Proof.
  destruct (split_spec s) as (ps & p & Hsplit & Hs & Hp).
  exists (ps ≫= λ q, list_ascii_of_string q ++ [sep]), p.
  rewrite Hsplit, last_snoc. repeat split; try done.
  destruct ps as [|q ps _] using rev_ind; [by left | right].
  rewrite bind_app. simpl. rewrite app_nil_r, app_assoc. apply last_snoc.
Qed.

End SplitFacts.

Section StringFacts.

Lemma chars_length (s : string) : length (list_ascii_of_string s) = String.length s.
Proof. induction s; simpl; congruence. Qed.

Lemma chars_inj (s t : string) :
  list_ascii_of_string s = list_ascii_of_string t → s = t.
Proof.
  intros H'. rewrite <- (string_of_list_ascii_of_string s), H'.
  apply string_of_list_ascii_of_string.
Qed.

Lemma chars_slice (n : nat) (s : string) :
  list_ascii_of_string (Action.slice n s) = drop n (list_ascii_of_string s).
Proof.
  revert s. induction n as [|n IH]; intros s; [by destruct s|].
  destruct s as [|c s]; simpl; [done | apply IH].
Qed.

Lemma endsWith_suffix (s t : string) :
  Action.endsWith s t = true
  ↔ list_ascii_of_string t `suffix_of` list_ascii_of_string s.
Proof.
  unfold Action.endsWith. rewrite andb_true_iff, Nat.leb_le, String.eqb_eq. split.
  - intros [_ Heq]. apply (f_equal list_ascii_of_string) in Heq.
    rewrite chars_slice in Heq. rewrite <- Heq. apply suffix_drop.
  - intros [k Hk].
    assert (String.length s = length k + String.length t) as Hlen.
    { by rewrite <- !chars_length, Hk, length_app. }
    split; [lia|]. apply chars_inj. rewrite chars_slice, Hk.
    replace (String.length s - String.length t) with (length k) by lia.
    by rewrite drop_app_length.
Qed.

(** A suffix without the separator is a suffix of the whole string exactly
    when it is one of the last piece. *)
Lemma endsWith_last_piece (sep : ascii) (s patch t : string) :
  last (Inputs.split sep s) = Some patch →
  sep ∉ list_ascii_of_string t →
  Action.endsWith patch t = Action.endsWith s t.
Proof.
  intros Hlast Ht.
  destruct (split_last sep s) as (pre & p & Hp & Hs & Hsep & Hpre).
  rewrite Hlast in Hp. injection Hp as <-.
  apply eq_true_iff_eq. rewrite !endsWith_suffix, Hs. split.
  - apply suffix_app_r.
  - intros [k Hk]. apply List.app_eq_app in Hk as [l [[-> Hl]|[-> Hl]]].
    + destruct l as [|a l _] using rev_ind.
      * simpl in Hl. by rewrite Hl.
      * exfalso. apply Ht. rewrite Hl.
        destruct Hpre as [Hnil|Hlast'].
        { apply app_eq_nil in Hnil as [_ Hn]. by apply app_eq_nil in Hn as [_ [=]]. }
        rewrite app_assoc, last_snoc in Hlast'. injection Hlast' as ->.
        rewrite !elem_of_app, list_elem_of_singleton. tauto.
    + by exists l.
Qed.

End StringFacts.

Section ActionFacts.

Import Action.

#[local] Arguments Action.slice : simpl never.

Lemma validateSubscription_stops (o : AxiosOutcome) :
  (validateSubscription o).2 = false ↔ o = axios_error (Some 403%Z).
Proof.
  destruct o as [|[status|]|]; simpl; try (split; [discriminate | congruence]).
  destruct (Z.eqb_spec status 403) as [->|Hne]; simpl; split; congruence.
Qed.

(** [main] by cases: it stops before anything is requested or run, or the
    four preliminaries succeed, the check run is requested and clippy is
    called, after which either a call fails or [Main.main] takes over. *)
Lemma main_cases (h : Host) :
  (created (main h) = [] ∧ clippy_runs (main h) = [] ∧ updates (main h) = []
   ∧ process (main h) = Main.exit 1
   ∧ (subscription h = axios_error (Some 403%Z)
      ∨ (Inputs.getInputs (getInput h) (trim h)).2 = Inputs.Return None
      ∨ (∃ e, (Inputs.getInputs (getInput h) (trim h)).2 = Inputs.Throw e)
      ∨ which_cargo h = None
      ∨ rustc_version h = None))
  ∨ (∃ inputs cargoPath stdout patch,
       subscription h ≠ axios_error (Some 403%Z)
       ∧ (Inputs.getInputs (getInput h) (trim h)).2 = Inputs.Return (Some inputs)
       ∧ which_cargo h = Some cargoPath
       ∧ rustc_version h = Some stdout
       ∧ last (Inputs.split "."%char (slice 6 stdout)) = Some patch
       ∧ created (main h) = [create_of h inputs (toolchain_of patch) (slice 6 stdout)]
       ∧ clippy_runs (main h) = [(inputs, cargoPath)]
       ∧ ((updates (main h) = [] ∧ process (main h) = Main.exit 1
           ∧ (getClippyOutput h inputs cargoPath = None
              ∨ ∃ code pieces, getClippyOutput h inputs cargoPath = Some (code, pieces)
                               ∧ renderMessages h pieces = None))
          ∨ (∃ code pieces renderer,
               getClippyOutput h inputs cargoPath = Some (code, pieces)
               ∧ renderMessages h pieces = Some renderer
               ∧ updates (main h)
                 = Main.requests
                     (Main.main (update_check_run h)
                        (run_of h inputs (toolchain_of patch)
                           (create_check_run h
                              (create_of h inputs (toolchain_of patch) (slice 6 stdout)))
                           code renderer))
               ∧ process (main h)
                 = Main.process
                     (Main.main (update_check_run h)
                        (run_of h inputs (toolchain_of patch)
                           (create_check_run h
                              (create_of h inputs (toolchain_of patch) (slice 6 stdout)))
                           code renderer))))).
Proof.
  unfold main.
  pose proof (validateSubscription_stops (subscription h)) as Hsub.
  destruct (validateSubscription (subscription h)) as [ev0 go_on]. simpl in Hsub.
  destruct go_on; simpl.
  2:{ left. repeat split. left. by apply Hsub. }
  assert (subscription h ≠ axios_error (Some 403%Z)) as Hok.
  { intros H'. apply Hsub in H'. discriminate. }
  destruct (Inputs.getInputs (getInput h) (trim h)) as [inputs_log [[inputs|]|e]]; simpl.
  3:{ left. repeat split. right. right. left. by exists e. }
  2:{ left. repeat split. right. by left. }
  destruct (which_cargo h) as [cargoPath|]; simpl.
  2:{ left. repeat split. do 3 right. by left. }
  destruct (rustc_version h) as [stdout|]; simpl.
  2:{ left. repeat split. do 4 right. done. }
  destruct (last (Inputs.split "." (slice 6 stdout))) as [patch|] eqn:Hpatch.
  2:{ exfalso. apply last_None in Hpatch. by apply (split_not_nil "."%char) in Hpatch. }
  right. exists inputs, cargoPath, stdout, patch.
  do 5 (split; [done|]).
  destruct (getClippyOutput h inputs cargoPath) as [[code pieces]|]; simpl.
  2:{ repeat split. left. repeat split. by left. }
  destruct (renderMessages h pieces) as [renderer|] eqn:Hrender; simpl.
  2:{ repeat split. left. repeat split. right. by exists code, pieces. }
  repeat split. right. by exists code, pieces, renderer.
Qed.


Lemma requests_main_cases (request : Main.CheckRunUpdate → option string) (r : Main.Run) :
  Main.requests (Main.main request r)
  = match Main.canPerformCheckRun r, Main.id r with
    | true, Some check_run => [Main.update_of r check_run]
    | _, _ => []
    end.
Proof.
  unfold Main.main. destruct (Main.canPerformCheckRun r), (Main.id r) as [i|]; try done.
  by destruct (request (Main.update_of r i)).
Qed.

Lemma process_main_cases (request : Main.CheckRunUpdate → option string) (r : Main.Run) :
  Main.process (Main.main request r) = Main.exit 1
  ∨ Main.process (Main.main request r) = Main.exitCode_set (Main.exitCode r)
    ∧ ∀ u, u ∈ Main.requests (Main.main request r) → is_Some (request u).
Proof.
  unfold Main.main. destruct (Main.canPerformCheckRun r), (Main.id r) as [i|]; simpl;
    try (right; split; [done|]; intros u Hu; by apply elem_of_nil in Hu).
  destruct (request (Main.update_of r i)) eqn:Hreq; simpl; [|by left].
  right. split; [done|]. intros u ->%list_elem_of_singleton. by rewrite Hreq.
Qed.

(** X4: [version.split('.').at(-1)] is never [undefined], whatever
    [rustc --version] printed: the [process.exit(1)] guarded by
    [patch === undefined] is never reached.  The patch part contains no
    dot. *)
Theorem patch_is_never_undefined (version : string) :
  ∃ patch, last (Inputs.split "."%char version) = Some patch
           ∧ "."%char ∉ list_ascii_of_string patch.
Proof.
  destruct (split_last "."%char version) as (pre & p & Hp & _ & Hsep & _). eauto.
Qed.

(** X5: either [main] stops with [process.exit(1)] before any check run
    is requested and before clippy is called, which happens exactly when
    the subscription request is answered with status 403, [getInputs]
    returns [null] or throws, [cargo] is not found, or [rustc --version]
    fails; or all four steps succeed, and then exactly one check run is
    requested and [getClippyOutput] is called exactly once, with the inputs
    [getInputs] returned and the path of [cargo]. *)
Theorem clippy_runs_after_four_preliminaries (h : Host) :
  (created (main h) = [] ∧ clippy_runs (main h) = [] ∧ updates (main h) = []
   ∧ process (main h) = Main.exit 1
   ∧ (subscription h = axios_error (Some 403%Z)
      ∨ (Inputs.getInputs (getInput h) (trim h)).2 = Inputs.Return None
      ∨ (∃ e, (Inputs.getInputs (getInput h) (trim h)).2 = Inputs.Throw e)
      ∨ which_cargo h = None
      ∨ rustc_version h = None))
  ∨ (∃ inputs cargoPath stdout c,
       subscription h ≠ axios_error (Some 403%Z)
       ∧ (Inputs.getInputs (getInput h) (trim h)).2 = Inputs.Return (Some inputs)
       ∧ which_cargo h = Some cargoPath
       ∧ rustc_version h = Some stdout
       ∧ created (main h) = [c]
       ∧ clippy_runs (main h) = [(inputs, cargoPath)]).
Proof.
  destruct (main_cases h) as [Hstop|(inputs & cargoPath & stdout & patch & Hrun)];
    [by left | right].
  exists inputs, cargoPath, stdout,
    (create_of h inputs (toolchain_of patch) (slice 6 stdout)). tauto.
Qed.

(** X6: the process ends with exit code 1, or with [process.exitCode] set
    to the exit code [getClippyOutput] returned; the latter only when
    [renderMessages] resolved and every update request resolved.  No other
    exit code is ever produced. *)
Theorem process_ends_with_1_or_clippy_code (h : Host) :
  process (main h) = Main.exit 1
  ∨ ∃ inputs cargoPath code pieces renderer,
      clippy_runs (main h) = [(inputs, cargoPath)]
      ∧ getClippyOutput h inputs cargoPath = Some (code, pieces)
      ∧ renderMessages h pieces = Some renderer
      ∧ (∀ u, u ∈ updates (main h) → is_Some (update_check_run h u))
      ∧ process (main h) = Main.exitCode_set code.
Proof.
  destruct (main_cases h)
    as [(_ & _ & _ & Hp & _)
       |(inputs & cargoPath & stdout & patch & _ & _ & _ & _ & _ & _ & Hruns & Hrest)];
    [by left|].
  destruct Hrest as [(_ & Hp & _)|(code & pieces & renderer & Hc & Hr & Hu & Hp)];
    [by left|].
  match type of Hp with _ = Main.process (Main.main ?req ?r) =>
    destruct (process_main_cases req r) as [H1|[Hcode Hall]] end.
  - left. by rewrite Hp.
  - right. exists inputs, cargoPath, code, pieces, renderer.
    rewrite Hp, Hu. done.
Qed.

(** X7: when the request that creates the check run rejects, no update
    request is sent, and the action does not fail for that: if
    [getClippyOutput] and [renderMessages] resolve, the process exit code
    is clippy's. *)
Theorem rejected_creation_is_tolerated (h : Host) (c : CheckRunCreate) (text : string) :
  created (main h) = [c] → create_check_run h c = inr text →
  updates (main h) = []
  ∧ ∀ inputs cargoPath code pieces renderer,
      clippy_runs (main h) = [(inputs, cargoPath)] →
      getClippyOutput h inputs cargoPath = Some (code, pieces) →
      renderMessages h pieces = Some renderer →
      process (main h) = Main.exitCode_set code.
Proof.
  intros Hc Hresp.
  destruct (main_cases h)
    as [(Hnil & _)
       |(inputs & cargoPath & stdout & patch & _ & _ & _ & _ & _ & Hcr & Hruns & Hrest)].
  { rewrite Hnil in Hc. discriminate. }
  rewrite Hcr in Hc. injection Hc as <-. rewrite Hresp in Hrest.
  destruct Hrest as [(Hu & _ & Hfail)|(code & pieces & renderer & Hcl & Hr & Hu & Hp)].
  - split; [done|]. intros inputs' cargoPath' code pieces renderer Hruns'.
    rewrite Hruns in Hruns'. injection Hruns' as <- <-.
    destruct Hfail as [->|(code' & pieces' & -> & Hr)]; [done|].
    intros [= <- <-]. by rewrite Hr.
  - rewrite requests_main_cases in Hu. simpl in Hu. split; [done|].
    intros inputs' cargoPath' code' pieces' renderer' Hruns'.
    rewrite Hruns in Hruns'. injection Hruns' as <- <-.
    rewrite Hcl. intros [= <- <-] _. by rewrite Hp.
Qed.

(** X8: an update request is sent only for a check run whose creation
    resolved; it is the only one, it carries the id the creation returned
    and the owner, repository and [started_at] of the creation request,
    and its status is [completed]. *)
Theorem update_addresses_the_created_check_run (h : Host) (u : Main.CheckRunUpdate) :
  u ∈ updates (main h) →
  ∃ c new_id,
    created (main h) = [c]
    ∧ create_check_run h c = inl new_id
    ∧ updates (main h) = [u]
    ∧ Main.check_run_id u = new_id
    ∧ Main.owner u = create_owner c
    ∧ Main.repo u = create_repo c
    ∧ Main.started_at u = create_started_at c
    ∧ Main.status u = "completed".
Proof.
  intros Hu.
  destruct (main_cases h)
    as [(_ & _ & Hnil & _)
       |(inputs & cargoPath & stdout & patch & _ & _ & _ & _ & _ & Hcr & _ & Hrest)].
  { rewrite Hnil in Hu. by apply elem_of_nil in Hu. }
  destruct Hrest as [(Hnil & _)|(code & pieces & renderer & _ & _ & Hus & _)].
  { rewrite Hnil in Hu. by apply elem_of_nil in Hu. }
  rewrite requests_main_cases in Hus. rewrite Hus in Hu |- *. simpl in Hu |- *.
  destruct (create_check_run h (create_of h inputs (toolchain_of patch) (slice 6 stdout)))
    as [new_id|text] eqn:Hresp; [|by apply elem_of_nil in Hu].
  apply list_elem_of_singleton in Hu as ->.
  eexists _, new_id. split; [done|]. by rewrite Hresp.
Qed.

Lemma no_dot_in_nightly : "."%char ∉ list_ascii_of_string "-nightly".
Proof.
  simpl. intros H'. repeat (apply elem_of_cons in H' as [?|H']; [done|]).
  by apply elem_of_nil in H'.
Qed.

Lemma no_dot_in_beta : "."%char ∉ list_ascii_of_string "-beta".
Proof.
  simpl. intros H'. repeat (apply elem_of_cons in H' as [?|H']; [done|]).
  by apply elem_of_nil in H'.
Qed.

(** X10: the toolchain label computed from the last dot-separated part of
    the version is the label the same test gives on the whole version: it
    depends only on how the version text ends. *)
Theorem toolchain_from_end_of_version (version patch : string) :
  last (Inputs.split "."%char version) = Some patch →
  toolchain_of patch = toolchain_of version.
Proof.
  intros Hlast. unfold toolchain_of.
  by rewrite !(endsWith_last_piece "."%char version patch) by
    (done || apply no_dot_in_nightly || apply no_dot_in_beta).
Qed.

(** X11: a version text whose last character is neither [y] nor [a], such
    as the line feed or the closing parenthesis that end the output of
    [rustc --version], is labelled [Stable], also for a nightly or beta
    compiler. *)
Theorem toolchain_stable_by_last_character (version patch : string) (c : ascii) :
  last (Inputs.split "."%char version) = Some patch →
  endsWith version (String c EmptyString) = true →
  c ≠ "y"%char → c ≠ "a"%char →
  toolchain_of patch = "Stable".
Proof.
  intros Hlast Hc Hy Ha. unfold toolchain_of.
  rewrite !(endsWith_last_piece "."%char version patch) by
    (done || apply no_dot_in_nightly || apply no_dot_in_beta).
  apply endsWith_suffix in Hc as [k Hk]. simpl in Hk.
  destruct (endsWith version "-nightly") eqn:Hn.
  { apply endsWith_suffix in Hn as [k' Hk']. simpl in Hk'. rewrite Hk in Hk'.
    change (k ++ [c] = k' ++ (["-"; "n"; "i"; "g"; "h"; "t"; "l"]%char ++ ["y"%char])) in Hk'.
    rewrite app_assoc in Hk'. by apply app_inj_tail in Hk' as [_ ->]. }
  destruct (endsWith version "-beta") eqn:Hb; [|done].
  apply endsWith_suffix in Hb as [k' Hk']. simpl in Hk'. rewrite Hk in Hk'.
  change (k ++ [c] = k' ++ (["-"; "b"; "e"; "t"]%char ++ ["a"%char])) in Hk'.
  rewrite app_assoc in Hk'. by apply app_inj_tail in Hk' as [_ ->].
Qed.

End ActionFacts.

Section InputsExtra.

Variable getInput : string → Inputs.InputOptions → string.
Variable trim : string → string.

Lemma getInputs_returned (i : Inputs.Inputs) :
  let opts := {| Inputs.required := None; Inputs.trimWhitespace := Some true |} in
  (Inputs.getInputs getInput trim).2 = Inputs.Return (Some i) →
  getInput "token" opts ≠ EmptyString
  ∧ (∃ b, Inputs.getBooleanInput getInput "all-features" opts = Inputs.Return b
          ∧ i = {| Inputs.working_directory := Some (getInput "working-directory" opts);
                   Inputs.github_token := getInput "token" opts;
                   Inputs.all_features := b;
                   Inputs.check_args := Inputs.getArrayInput getInput trim "check-args" " ";
                   Inputs.forbid := Inputs.getArrayInput getInput trim "forbid" ",";
                   Inputs.allow := Inputs.getArrayInput getInput trim "allow" ",";
                   Inputs.warn := Inputs.getArrayInput getInput trim "warn" ",";
                   Inputs.deny := Inputs.getArrayInput getInput trim "deny" ",";
                   Inputs.args := Inputs.getArrayInput getInput trim "args" " " |})
  ∧ (Inputs.getInputs getInput trim).1
    = Inputs.deprecated "allow" (Inputs.allow i) ++ Inputs.deprecated "deny" (Inputs.deny i)
      ++ Inputs.deprecated "forbid" (Inputs.forbid i)
      ++ Inputs.deprecated "warn" (Inputs.warn i).
Proof.
  intros opts. unfold Inputs.getInputs. fold opts.
  destruct (decide (getInput "token" opts = EmptyString)) as [He|Hne].
  { rewrite (bool_decide_eq_true_2 _ He). discriminate. }
  rewrite (bool_decide_eq_false_2 _ Hne).
  destruct (Inputs.getBooleanInput getInput "all-features" opts) as [b|e]; simpl;
    [|discriminate].
  intros [= <-]. split; [done|]. split; [by exists b | done].
Qed.

Lemma split_length (sep : ascii) (s : string) :
  length (Inputs.split sep s)
  = S (length (filter (λ c, c = sep) (list_ascii_of_string s))).
Proof.
  induction s as [|c s IH]; simpl; [done|].
  rewrite filter_cons.
  destruct (Ascii.eqb_spec c sep) as [->|Hne].
  - rewrite decide_True by done. simpl. by rewrite IH.
  - rewrite decide_False by done.
    pose proof (split_not_nil sep s) as Hnil.
    destruct (Inputs.split sep s); [done|]. by rewrite <- IH.
Qed.

(** X1: joining the pieces of [s.split(sep)] with the separator gives [s]
    back; no piece contains the separator; and there is one piece more
    than there are separators in [s]. *)
Theorem split_then_join (sep : ascii) (s : string) :
  String.concat (String sep EmptyString) (Inputs.split sep s) = s
  ∧ Forall (λ p, sep ∉ list_ascii_of_string p) (Inputs.split sep s)
  ∧ length (Inputs.split sep s)
    = S (length (filter (λ c, c = sep) (list_ascii_of_string s))).
Proof.
  split; [apply split_concat|]. split; [apply split_no_separator | apply split_length].
Qed.


(** X3: when [getInputs] returns inputs, their token is the [token] input
    and is not empty, their working directory is defined (it is the
    [working-directory] input, empty or not), [all-features] is what
    [getBooleanInput] returned, and the log holds only deprecation
    warnings: one for each of [allow], [deny], [forbid] and [warn] that is
    not empty, in this order, so at most four. *)
Theorem getInputs_returned_inputs (i : Inputs.Inputs) :
  let opts := {| Inputs.required := None; Inputs.trimWhitespace := Some true |} in
  (Inputs.getInputs getInput trim).2 = Inputs.Return (Some i) →
  Inputs.github_token i = getInput "token" opts
  ∧ Inputs.github_token i ≠ EmptyString
  ∧ Inputs.working_directory i = Some (getInput "working-directory" opts)
  ∧ Inputs.getBooleanInput getInput "all-features" opts
    = Inputs.Return (Inputs.all_features i)
  ∧ (Inputs.getInputs getInput trim).1
    = Inputs.deprecated "allow" (Inputs.allow i) ++ Inputs.deprecated "deny" (Inputs.deny i)
      ++ Inputs.deprecated "forbid" (Inputs.forbid i)
      ++ Inputs.deprecated "warn" (Inputs.warn i)
  ∧ Forall (λ e, ∃ m, e = Inputs.warning m) (Inputs.getInputs getInput trim).1
  ∧ (length (Inputs.getInputs getInput trim).1 ≤ 4)%nat.
Proof.
  intros opts Hret.
  destruct (getInputs_returned i Hret) as (Htok & (b & Hb & ->) & Hlog). simpl in *.
  do 5 (split; [done|]). rewrite Hlog.
  assert (∀ n l, Forall (λ e, ∃ m, e = Inputs.warning m) (Inputs.deprecated n l)
                 ∧ (length (Inputs.deprecated n l) ≤ 1)%nat) as Hdep.
  { intros n [|x l]; simpl; split; try lia; [apply Forall_nil_2|].
    apply Forall_singleton. by eexists. }
  split.
  - rewrite !Forall_app. repeat split; apply Hdep.
  - rewrite !length_app.
    pose proof (λ n l, proj2 (Hdep n l)) as Hlen.
    pose proof (Hlen "allow" (Inputs.getArrayInput getInput trim "allow" ",")).
    pose proof (Hlen "deny" (Inputs.getArrayInput getInput trim "deny" ",")).
    pose proof (Hlen "forbid" (Inputs.getArrayInput getInput trim "forbid" ",")).
    pose proof (Hlen "warn" (Inputs.getArrayInput getInput trim "warn" ",")).
    lia.
Qed.

End InputsExtra.

Section ActionExtra.

Import Action.

(** X9: the name of every check run [main] creates ends with [ in ]
    followed by the [working-directory] input, also when that input is
    empty: [getInputs] never leaves [working-directory] undefined, so the
    branch of [main] that omits the directory is never taken. *)
Theorem check_run_name_always_names_a_directory (h : Host) (c : CheckRunCreate) :
  c ∈ created (main h) →
  ∃ stdout patch,
    rustc_version h = Some stdout
    ∧ last (Inputs.split "."%char (slice 6 stdout)) = Some patch
    ∧ name c = "Clippy: Rust " +:+ toolchain_of patch +:+ " " +:+ slice 6 stdout
               +:+ " in "
               +:+ getInput h "working-directory"
                     {| Inputs.required := None; Inputs.trimWhitespace := Some true |}.
Proof.
  intros Hc.
  destruct (main_cases h)
    as [(Hnil & _)
       |(inputs & cargoPath & stdout & patch & _ & Hin & _ & Hrustc & Hpatch & Hcr & _)].
  { rewrite Hnil in Hc. by apply elem_of_nil in Hc. }
  rewrite Hcr in Hc. apply list_elem_of_singleton in Hc as ->.
  exists stdout, patch. do 2 (split; [done|]).
  destruct (getInputs_returned _ _ inputs Hin) as (_ & (b & _ & ->) & _).
  reflexivity.
Qed.

End ActionExtra.

Example main_on_sample_host :
  Action.created (Action.main (sample_host (inl 7%Z))) = [sample_create]
  ∧ Action.clippy_runs (Action.main (sample_host (inl 7%Z)))
    = [(sample_returned_inputs, "/home/runner/.cargo/bin/cargo")]
  ∧ Action.updates (Action.main (sample_host (inl 7%Z))) = [sample_update]
  ∧ Action.process (Action.main (sample_host (inl 7%Z))) = Main.exitCode_set 101.
Proof. vm_compute. done. Qed.

Lemma getInputs_returned_inputs_witness :
  Inputs.github_token sample_returned_inputs
  = sample_inputs "TRUE" "token" {| Inputs.required := None; Inputs.trimWhitespace := Some true |}
  ∧ Inputs.github_token sample_returned_inputs ≠ EmptyString
  ∧ Inputs.working_directory sample_returned_inputs
    = Some (sample_inputs "TRUE" "working-directory"
              {| Inputs.required := None; Inputs.trimWhitespace := Some true |})
  ∧ Inputs.getBooleanInput (sample_inputs "TRUE") "all-features"
      {| Inputs.required := None; Inputs.trimWhitespace := Some true |}
    = Inputs.Return (Inputs.all_features sample_returned_inputs)
  ∧ (Inputs.getInputs (sample_inputs "TRUE") id).1
    = Inputs.deprecated "allow" (Inputs.allow sample_returned_inputs)
      ++ Inputs.deprecated "deny" (Inputs.deny sample_returned_inputs)
      ++ Inputs.deprecated "forbid" (Inputs.forbid sample_returned_inputs)
      ++ Inputs.deprecated "warn" (Inputs.warn sample_returned_inputs)
  ∧ Forall (λ e, ∃ m, e = Inputs.warning m) (Inputs.getInputs (sample_inputs "TRUE") id).1
  ∧ (length (Inputs.getInputs (sample_inputs "TRUE") id).1 ≤ 4)%nat.
Proof.
  apply (getInputs_returned_inputs (sample_inputs "TRUE") id sample_returned_inputs).
  vm_compute. reflexivity.
Defined.

Lemma rejected_creation_is_tolerated_witness :
  Action.updates (Action.main (sample_host (inr "Resource not accessible by integration"))) = []
  ∧ ∀ inputs cargoPath code pieces renderer,
      Action.clippy_runs (Action.main (sample_host (inr "Resource not accessible by integration")))
      = [(inputs, cargoPath)] →
      Action.getClippyOutput (sample_host (inr "Resource not accessible by integration"))
        inputs cargoPath = Some (code, pieces) →
      Action.renderMessages (sample_host (inr "Resource not accessible by integration")) pieces
      = Some renderer →
      Action.process (Action.main (sample_host (inr "Resource not accessible by integration")))
      = Main.exitCode_set code.
Proof.
  apply (rejected_creation_is_tolerated
           (sample_host (inr "Resource not accessible by integration")) sample_create
           "Resource not accessible by integration").
  - vm_compute. reflexivity.
  - reflexivity.
Defined.

Lemma update_addresses_the_created_check_run_witness :
  ∃ c new_id,
    Action.created (Action.main (sample_host (inl 7%Z))) = [c]
    ∧ Action.create_check_run (sample_host (inl 7%Z)) c = inl new_id
    ∧ Action.updates (Action.main (sample_host (inl 7%Z))) = [sample_update]
    ∧ Main.check_run_id sample_update = new_id
    ∧ Main.owner sample_update = Action.create_owner c
    ∧ Main.repo sample_update = Action.create_repo c
    ∧ Main.started_at sample_update = Action.create_started_at c
    ∧ Main.status sample_update = "completed".
Proof.
  apply (update_addresses_the_created_check_run (sample_host (inl 7%Z)) sample_update).
  vm_compute. apply list_elem_of_here.
Defined.

Lemma check_run_name_always_names_a_directory_witness :
  ∃ stdout patch,
    Action.rustc_version (sample_host (inl 7%Z)) = Some stdout
    ∧ last (Inputs.split "."%char (Action.slice 6 stdout)) = Some patch
    ∧ Action.name sample_create
      = "Clippy: Rust " +:+ Action.toolchain_of patch +:+ " " +:+ Action.slice 6 stdout
        +:+ " in "
        +:+ Action.getInput (sample_host (inl 7%Z)) "working-directory"
              {| Inputs.required := None; Inputs.trimWhitespace := Some true |}.
Proof.
  apply (check_run_name_always_names_a_directory (sample_host (inl 7%Z)) sample_create).
  vm_compute. apply list_elem_of_here.
Defined.

Lemma toolchain_from_end_of_version_witness :
  Action.toolchain_of "0-nightly" = Action.toolchain_of "1.72.0-nightly".
Proof.
  apply (toolchain_from_end_of_version "1.72.0-nightly" "0-nightly").
  reflexivity.
Defined.

Lemma toolchain_stable_by_last_character_witness :
  Action.toolchain_of ("0-nightly (5680fa18f 2023-07-01)" +:+ Main.newline) = "Stable".
Proof.
  apply (toolchain_stable_by_last_character
           (Action.slice 6 sample_stdout)
           ("0-nightly (5680fa18f 2023-07-01)" +:+ Main.newline)
           (ascii_of_nat 10)).
  - reflexivity.
  - reflexivity.
  - discriminate.
  - discriminate.
Defined.

Example toolchain_samples :
  Action.toolchain_of <$> ["0-nightly"; "0-beta"; "0"; "0-beta.3"; "0-nightly (5680fa18f 2023-07-01)"]
  = ["Nightly"; "Beta"; "Stable"; "Stable"; "Stable"].
Proof. reflexivity. Qed.

Example main_without_subscription :
  Action.main
    {| Action.subscription := Action.axios_error (Some 403%Z);
       Action.getInput := sample_inputs "TRUE";
       Action.trim := id;
       Action.which_cargo := Some "/home/runner/.cargo/bin/cargo";
       Action.rustc_version := Some sample_stdout;
       Action.create_check_run := λ _, inl 7%Z;
       Action.getClippyOutput := λ _ _, Some (0%Z, []);
       Action.renderMessages := λ _, Some {| Main.annotations := [] |};
       Action.update_check_run := λ _, Some "{}";
       Action.context_sha := "4f2c9d1";
       Action.context_owner := "step-security";
       Action.context_repo := "clippy-action";
       Action.os := "Linux";
       Action.arch := "x64";
       Action.startedAt := "2025-01-01T00:00:00.000Z";
       Action.completed := "2025-01-01T00:00:05.000Z";
       Action.elapsed := 5000%Z |}
  = {| Action.events :=
         [Action.log_inputs
            (Inputs.error "Subscription is not valid. Reach out to support@stepsecurity.io")];
       Action.created := [];
       Action.clippy_runs := [];
       Action.updates := [];
       Action.process := Main.exit 1 |}.
Proof. reflexivity. Qed.

Example events_on_sample_host :
  Action.events (Action.main (sample_host (inr "Resource not accessible by integration")))
  = [ Action.log_inputs (Inputs.warning
        "The `allow` input is deprecated in v1.4 and can be used within the `check-args` input");
      Action.startGroup "Check if `cargo` exists";
      Action.log_main (Main.info "Found `cargo` binary in path [/home/runner/.cargo/bin/cargo]");
      Action.endGroup;
      Action.startGroup "Collecting rustc information...";
      Action.endGroup;
      Action.log_inputs (Inputs.warning
        "clippy-action doesn't have permissions to create Check Runs, disabling!");
      Action.log_inputs (Inputs.warning "Resource not accessible by integration");
      Action.log_main (Main.info "Clippy exited with code 101") ].
Proof. vm_compute. reflexivity. Qed.

(** ** The verdict of a whole run, and concrete publications *)

Section Verdict.

Import Action.

#[local] Arguments Action.slice : simpl never.


End Verdict.


(** Clippy exits with 0 and [renderMessages] rejects: no update is sent and
    the process exits with 1. *)
Example rejected_rendering_exits_with_1 :
  let h :=
    {| Action.subscription := Action.axios_resolved;
       Action.getInput := sample_inputs "TRUE";
       Action.trim := id;
       Action.which_cargo := Some "/home/runner/.cargo/bin/cargo";
       Action.rustc_version := Some sample_stdout;
       Action.create_check_run := λ _, inl 7%Z;
       Action.getClippyOutput := λ _ _, Some (0%Z, ["unused"]);
       Action.renderMessages := λ _, None;
       Action.update_check_run := λ _, Some "{}";
       Action.context_sha := "4f2c9d1";
       Action.context_owner := "step-security";
       Action.context_repo := "clippy-action";
       Action.os := "Linux";
       Action.arch := "x64";
       Action.startedAt := "2025-01-01T00:00:00.000Z";
       Action.completed := "2025-01-01T00:00:05.000Z";
       Action.elapsed := 5000%Z |} in
  Action.updates (Action.main h) = [] ∧ Action.process (Action.main h) = Main.exit 1.
Proof. vm_compute. done. Qed.

Lemma published_iff_file_non_empty_witness :
  Main.requests (Main.main (λ _, Some "{}") clean_run) = [Main.update_of clean_run 7]
  ∧ Main.toCheckAnnotation unused_variable
    ∈ Main.output_annotations (Main.output (Main.update_of clean_run 7))
  ∧ (Main.toCheckAnnotation deprecated_attribute
     ∉ Main.output_annotations (Main.output (Main.update_of clean_run 7)))
  ∧ length (Main.output_annotations (Main.output (Main.update_of clean_run 7))) = 2.
Proof.
  destruct (published_iff_file_non_empty (λ _, Some "{}") clean_run)
    as (Hsent & Hlist & Hiff & Hnot & _).
  split; [exact Hsent|]. split; [|split].
  - apply (Hiff 7%Z). exists unused_variable.
    split; [apply list_elem_of_here|]. split; [|reflexivity].
    exists "src/lib.rs". split; [reflexivity | discriminate].
  - apply (Hnot 7%Z).
    + apply list_elem_of_further, list_elem_of_here.
    + reflexivity.
  - rewrite (Hlist 7%Z). reflexivity.
Defined.

